(** * NOVA AI: the relay and state core of [main.py]

    A shallow embedding of the chat proxy: the per-identity rate limiter,
    the rolling conversation memory, the streaming relay that parses the
    upstream event frames, and the two request handlers [chat] and [reset].

    Conventions of the embedding.
    - A Python [str] is a list of Unicode code points ([list N]); [bytes]
      are [list byte]; Python [int]s are [Z]; the timestamps returned by
      [time.time()] are IEEE binary64 values ([float]).
    - The three module-level dictionaries are fields of a [World] record,
      next to the observable traces of the effects the code performs (clock
      reads, upstream calls, error log).  What the outside world answers
      (clock readings, upstream responses, fresh uuids) is an [Env].
    - An async generator is modelled by the list of fragments it yields
      when it is driven to exhaustion. *)

From Stdlib Require Import ZArith NArith List String Ascii Strings.Byte Lia.
From Stdlib Require Import Floats.PrimFloat.
From stdpp Require Import gmap list strings pretty.

(** ** Python text *)

Abbreviation pystr := (list N) (only parsing).

(** An ASCII literal as Python text. *)
Definition str (s : string) : pystr := N_of_ascii <$> list_ascii_of_string s.

Arguments str : simpl never.

Section Text.
Local Open Scope N_scope.

(** [str.isspace] on one code point: the characters [str.strip()] removes. *)
Definition isspace (c : N) : bool :=
  ((0x09 <=? c) && (c <=? 0x0D)) || ((0x1C <=? c) && (c <=? 0x20))
  || (c =? 0x85) || (c =? 0xA0) || (c =? 0x1680)
  || ((0x2000 <=? c) && (c <=? 0x200A))
  || (c =? 0x2028) || (c =? 0x2029) || (c =? 0x202F) || (c =? 0x205F)
  || (c =? 0x3000).

Fixpoint lstrip (s : pystr) : pystr :=
  match s with
  | c :: r => if isspace c then lstrip r else s
  | [] => []
  end.

Definition rstrip (s : pystr) : pystr := rev (lstrip (rev s)).

(** [s.strip()] *)
Definition strip (s : pystr) : pystr := rstrip (lstrip s).

(** [s.startswith(p)] *)
Fixpoint startswith (p s : pystr) : bool :=
  match p, s with
  | [], _ => true
  | a :: p', b :: s' => (a =? b) && startswith p' s'
  | _ :: _, [] => false
  end.

(** [p in s] for two strings: [p] occurs as a contiguous run of [s]. *)
Fixpoint str_contains (p s : pystr) : bool :=
  startswith p s || match s with [] => false | _ :: s' => str_contains p s' end.

(** Strict UTF-8 decoding, [bytes.decode("utf-8")]: overlong forms, encoded
    surrogates and values above U+10FFFF are errors ([None]). *)
Definition is_cont (b : N) : bool := (0x80 <=? b) && (b <=? 0xBF).
Definition cont_bits (b : N) : N := N.land b 0x3F.

Fixpoint utf8_decode (bs : list N) : option pystr :=
  match bs with
  | [] => Some []
  | b0 :: r0 =>
    if b0 <? 0x80 then cons b0 <$> utf8_decode r0
    else if (0xC2 <=? b0) && (b0 <=? 0xDF) then
      match r0 with
      | b1 :: r1 =>
        if is_cont b1
        then cons (N.lor (N.shiftl (N.land b0 0x1F) 6) (cont_bits b1)) <$> utf8_decode r1
        else None
      | _ => None
      end
    else if (0xE0 <=? b0) && (b0 <=? 0xEF) then
      match r0 with
      | b1 :: b2 :: r2 =>
        let lo := if b0 =? 0xE0 then 0xA0 else 0x80 in
        let hi := if b0 =? 0xED then 0x9F else 0xBF in
        if (lo <=? b1) && (b1 <=? hi) && is_cont b2
        then cons (N.lor (N.shiftl (N.land b0 0x0F) 12)
                     (N.lor (N.shiftl (cont_bits b1) 6) (cont_bits b2)))
               <$> utf8_decode r2
        else None
      | _ => None
      end
    else if (0xF0 <=? b0) && (b0 <=? 0xF4) then
      match r0 with
      | b1 :: b2 :: b3 :: r3 =>
        let lo := if b0 =? 0xF0 then 0x90 else 0x80 in
        let hi := if b0 =? 0xF4 then 0x8F else 0xBF in
        if (lo <=? b1) && (b1 <=? hi) && is_cont b2 && is_cont b3
        then cons (N.lor (N.shiftl (N.land b0 0x07) 18)
                     (N.lor (N.shiftl (cont_bits b1) 12)
                        (N.lor (N.shiftl (cont_bits b2) 6) (cont_bits b3))))
               <$> utf8_decode r3
        else None
      | _ => None
      end
    else None
  end.

(** [chunk.decode("utf-8")] *)
Definition decode (chunk : list byte) : option pystr :=
  utf8_decode (Byte.to_N <$> chunk).

End Text.

(** [l[i:]] for a Python list or string and any integer [i]. *)
Definition slice_from {A} (i : Z) (l : list A) : list A :=
  let len := Z.of_nat (length l) in
  let start := if (i <? 0)%Z then Z.max (len + i) 0 else Z.min i len in
  drop (Z.to_nat start) l.

(** [l[i]] for any integer [i]; [None] stands for [IndexError]. *)
Definition index {A} (i : Z) (l : list A) : option A :=
  let len := Z.of_nat (length l) in
  let j := if (i <? 0)%Z then (len + i)%Z else i in
  if ((0 <=? j) && (j <? len))%Z then l !! Z.to_nat j else None.

(** ** Python values, as the [json] module builds them *)

#[warnings="-register-all"]
Inductive pyval :=
| PyNone
| PyBool (b : bool)
| PyInt (z : Z)
| PyFloat (text : pystr)
| PyStr (s : pystr)
| PyList (l : list pyval)
| PyDict (d : list (pystr * pyval)).

(** A [dict] with string keys: an association list without duplicate keys,
    in insertion order.  [d[k] = v] overwrites in place or appends. *)
Fixpoint dict_set (k : pystr) (v : pyval) (d : list (pystr * pyval)) :
    list (pystr * pyval) :=
  match d with
  | [] => [(k, v)]
  | (k', v') :: r =>
    if bool_decide (k = k') then (k, v) :: r else (k', v') :: dict_set k v r
  end.

Fixpoint dict_get (k : pystr) (d : list (pystr * pyval)) : option pyval :=
  match d with
  | [] => None
  | (k', v') :: r => if bool_decide (k = k') then Some v' else dict_get k r
  end.

(** [v[k]] with a string subscript.  [None] is a raised exception:
    [KeyError] on a dict without the key, [TypeError] on anything else. *)
Definition getitem_str (v : pyval) (k : pystr) : option pyval :=
  match v with
  | PyDict d => dict_get k d
  | _ => None
  end.

(** [v[i]] with an integer subscript: a list element, or the one-character
    string at that position.  A dict built from JSON has only string keys,
    so an integer subscript raises [KeyError]. *)
Definition getitem_int (v : pyval) (i : Z) : option pyval :=
  match v with
  | PyList l => index i l
  | PyStr s => (fun c => PyStr [c]) <$> index i s
  | _ => None
  end.

(** [k in v] for a string [k]: key membership in a dict, element membership
    in a list, substring test in a string, [TypeError] otherwise. *)
Definition contains_str (k : pystr) (v : pyval) : option bool :=
  match v with
  | PyDict d => Some (bool_decide (is_Some (dict_get k d)))
  | PyList l =>
    Some (existsb (fun e => match e with PyStr t => bool_decide (k = t) | _ => false end) l)
  | PyStr s => Some (str_contains k s)
  | _ => None
  end.

(** ** [json.loads] on a [str]

    The grammar of the decoder of the standard library: objects, arrays,
    strings with escapes (strict mode: no raw control characters), numbers,
    [null], [true], [false] and the extensions [NaN], [Infinity] and
    [-Infinity].  Interpreter resource limits (recursion depth, the cap on
    the digits of an integer literal) are outside the model. *)

(** The result of scanning with a recursion budget: a value and the rest of
    the input, a syntax error, or an exhausted budget. *)
Inductive scan (A : Type) :=
| Found (a : A) (rest : pystr)
| Reject
| Starved.
Arguments Found {A} a rest.
Arguments Reject {A}.
Arguments Starved {A}.

Section Json.
Local Open Scope N_scope.

Definition is_json_ws (c : N) : bool :=
  (c =? 32) || (c =? 9) || (c =? 10) || (c =? 13).

Fixpoint skip_ws (s : pystr) : pystr :=
  match s with
  | c :: r => if is_json_ws c then skip_ws r else s
  | [] => []
  end.

Definition hexval (c : N) : option N :=
  if (48 <=? c) && (c <=? 57) then Some (c - 48)
  else if (97 <=? c) && (c <=? 102) then Some (c - 87)
  else if (65 <=? c) && (c <=? 70) then Some (c - 55)
  else None.

Definition hex4 (a b c d : N) : option N :=
  a' ← hexval a; b' ← hexval b; c' ← hexval c; d' ← hexval d;
  Some (((a' * 16 + b') * 16 + c') * 16 + d').

Definition is_high_surrogate (c : N) : bool := (0xD800 <=? c) && (c <=? 0xDBFF).
Definition is_low_surrogate (c : N) : bool := (0xDC00 <=? c) && (c <=? 0xDFFF).
Definition join_surrogates (hi lo : N) : N :=
  0x10000 + N.lor (N.shiftl (N.land hi 0x3FF) 10) (N.land lo 0x3FF).

(** The character a one-letter escape stands for. *)
Definition unescape (c : N) : option N :=
  if (c =? 34) || (c =? 92) || (c =? 47) then Some c
  else if c =? 98 then Some 8
  else if c =? 102 then Some 12
  else if c =? 110 then Some 10
  else if c =? 114 then Some 13
  else if c =? 116 then Some 9
  else None.

Definition prepend (c : N) (o : option (pystr * pystr)) : option (pystr * pystr) :=
  (fun p => (c :: p.1, p.2)) <$> o.

(** The body of a string literal, from just after the opening quote: the
    decoded text and what follows the closing quote. *)
Fixpoint scanstring (s : pystr) : option (pystr * pystr) :=
  match s with
  | [] => None
  | c :: r =>
    if c =? 34 then Some ([], r)
    else if c =? 92 then
      match r with
      | [] => None
      | e :: r1 =>
        if e =? 117 then
          match r1 with
          | h1 :: h2 :: h3 :: h4 :: r5 =>
            match hex4 h1 h2 h3 h4 with
            | None => None
            | Some u =>
              match r5 with
              | b :: u' :: g1 :: g2 :: g3 :: g4 :: r11 =>
                if is_high_surrogate u && (b =? 92) && (u' =? 117) then
                  match hex4 g1 g2 g3 g4 with
                  | None => None
                  | Some u2 =>
                    if is_low_surrogate u2
                    then prepend (join_surrogates u u2) (scanstring r11)
                    else prepend u (scanstring r5)
                  end
                else prepend u (scanstring r5)
              | _ => prepend u (scanstring r5)
              end
            end
          | _ => None
          end
        else
          match unescape e with
          | Some x => prepend x (scanstring r1)
          | None => None
          end
      end
    else if c <=? 0x1F then None
    else prepend c (scanstring r)
  end.

Definition isdigit (c : N) : bool := (48 <=? c) && (c <=? 57).

Fixpoint span_digits (s : pystr) : pystr * pystr :=
  match s with
  | c :: r =>
    if isdigit c then let '(ds, r') := span_digits r in (c :: ds, r') else ([], s)
  | [] => ([], [])
  end.

Definition int_of_digits (ds : pystr) : Z :=
  fold_left (fun acc c => (acc * 10 + Z.of_N (c - 48))%Z) ds 0%Z.

(** The longest number literal at the head of [s]: an [int] when it has
    neither fraction nor exponent, a [float] otherwise. *)
Definition match_number (s : pystr) : option (pyval * pystr) :=
  let '(sign, s1) :=
    match s with
    | c :: r => if c =? 45 then ([c], r) else ([], s)
    | [] => ([], s)
    end in
  match s1 with
  | [] => None
  | c :: r =>
    let int_part :=
      if (49 <=? c) && (c <=? 57)
      then let '(ds, r') := span_digits r in Some (c :: ds, r')
      else if c =? 48 then Some ([c], r) else None in
    match int_part with
    | None => None
    | Some (ds, r1) =>
      let '(frac, r2) :=
        match r1 with
        | dot :: d :: t =>
          if (dot =? 46) && isdigit d
          then let '(fs, t') := span_digits t in (dot :: d :: fs, t')
          else ([], r1)
        | _ => ([], r1)
        end in
      let '(expo, r3) :=
        match r2 with
        | e :: t =>
          if (e =? 101) || (e =? 69) then
            let '(sg, t1) :=
              match t with
              | c' :: t' => if (c' =? 43) || (c' =? 45) then ([c'], t') else ([], t)
              | [] => ([], t)
              end in
            let '(es, t2) := span_digits t1 in
            match es with
            | [] => ([], r2)
            | _ :: _ => (e :: sg ++ es, t2)
            end
          else ([], r2)
        | [] => ([], r2)
        end in
      match frac, expo with
      | [], [] =>
        let z := int_of_digits ds in
        Some (PyInt (match sign with [] => z | _ => (- z)%Z end), r3)
      | _, _ => Some (PyFloat (sign ++ ds ++ frac ++ expo), r3)
      end
    end
  end.

(** The keyword literals. *)
Definition literal (s : pystr) : option (pyval * pystr) :=
  if startswith (str "null") s then Some (PyNone, drop 4 s)
  else if startswith (str "true") s then Some (PyBool true, drop 4 s)
  else if startswith (str "false") s then Some (PyBool false, drop 5 s)
  else if startswith (str "NaN") s then Some (PyFloat (str "NaN"), drop 3 s)
  else if startswith (str "Infinity") s then Some (PyFloat (str "Infinity"), drop 8 s)
  else if startswith (str "-Infinity") s then Some (PyFloat (str "-Infinity"), drop 9 s)
  else None.

(** [scan_once] reads one JSON term at the head of the input;
    [parse_items] reads the elements of a non-empty array, from the first
    element up to and including the closing bracket; [parse_members] reads
    the members of a non-empty object, from the first key up to and
    including the closing brace. *)
Fixpoint scan_once (n : nat) (s : pystr) {struct n} : scan pyval :=
  match n with
  | O => Starved
  | S n' =>
    match s with
    | [] => Reject
    | c :: r =>
      if c =? 34 then
        match scanstring r with
        | Some (t, r') => Found (PyStr t) r'
        | None => Reject
        end
      else if c =? 123 then
        match skip_ws r with
        | c1 :: r2 =>
          if c1 =? 125 then Found (PyDict []) r2
          else
            match parse_members n' [] (c1 :: r2) with
            | Found d r' => Found (PyDict d) r'
            | Reject => Reject
            | Starved => Starved
            end
        | [] => Reject
        end
      else if c =? 91 then
        match skip_ws r with
        | c1 :: r2 =>
          if c1 =? 93 then Found (PyList []) r2
          else
            match parse_items n' [] (c1 :: r2) with
            | Found l r' => Found (PyList l) r'
            | Reject => Reject
            | Starved => Starved
            end
        | [] => Reject
        end
      else
        match literal s with
        | Some (v, r') => Found v r'
        | None =>
          match match_number s with
          | Some (v, r') => Found v r'
          | None => Reject
          end
        end
    end
  end
with parse_items (n : nat) (acc : list pyval) (s : pystr) {struct n} :
    scan (list pyval) :=
  match n with
  | O => Starved
  | S n' =>
    match scan_once n' s with
    | Found v r =>
      match skip_ws r with
      | c :: r1 =>
        if c =? 93 then Found (acc ++ [v]) r1
        else if c =? 44 then parse_items n' (acc ++ [v]) (skip_ws r1)
        else Reject
      | [] => Reject
      end
    | Reject => Reject
    | Starved => Starved
    end
  end
with parse_members (n : nat) (d : list (pystr * pyval)) (s : pystr) {struct n} :
    scan (list (pystr * pyval)) :=
  match n with
  | O => Starved
  | S n' =>
    match s with
    | q :: r =>
      if q =? 34 then
        match scanstring r with
        | Some (k, r1) =>
          match skip_ws r1 with
          | c :: r2 =>
            if c =? 58 then
              match scan_once n' (skip_ws r2) with
              | Found v r3 =>
                match skip_ws r3 with
                | c' :: r4 =>
                  if c' =? 125 then Found (dict_set k v d) r4
                  else if c' =? 44 then parse_members n' (dict_set k v d) (skip_ws r4)
                  else Reject
                | [] => Reject
                end
              | Reject => Reject
              | Starved => Starved
              end
            else Reject
          | [] => Reject
          end
        | None => Reject
        end
      else Reject
    | [] => Reject
    end
  end.

(** [json.loads(s)]: one term, surrounded by optional whitespace, and
    nothing else; a leading byte-order mark is refused.  [None] stands for
    the raised [JSONDecodeError]. *)
Definition json_loads (s : pystr) : option pyval :=
  if startswith [0xFEFF] s then None
  else
    match scan_once (2 * length s + 1) (skip_ws s) with
    | Found v r => match skip_ws r with [] => Some v | _ :: _ => None end
    | Reject => None
    | Starved => None
    end.

End Json.

(** ** Configuration *)

Definition REQUESTS_PER_MINUTE : Z := 30.
Definition MAX_MESSAGE_LENGTH : Z := 3000.
Definition MAX_MEMORY_MESSAGES : Z := 20.

Definition GROQ_URL : pystr := str "https://api.groq.com/openai/v1/chat/completions".

Definition MODELS : gmap (list N) (list N) :=
  list_to_map
    [ (str "fast", str "llama-3.1-8b-instant");
      (str "smart", str "llama-3.1-70b-versatile");
      (str "ultra", str "mixtral-8x22b-instruct") ].

Definition BASE_SYSTEM_PROMPT : pystr := str "
You are NOVA, a calm, intelligent, friendly, and confident assistant.
You feel human and speak naturally.
Rules:
- Never mention you are an AI, model, Groq, or any APIs
- Avoid illegal, harmful, or explicit content
- Adapt response length to the conversation
- Be warm, helpful, and a bit playful when it fits
".

(** ** Messages, requests and replies *)

Inductive Role := system | user | assistant.

(** One message dict, [{"role": ..., "content": ...}]. *)
Record Turn := mkTurn { role : Role; content : pystr }.

Module ChatRequest.
Record t := mk {
  message : pystr;
  uid : option pystr;
  model : option pystr;
  temperature : option float;
  max_tokens : option Z
}.
End ChatRequest.

(** The JSON body of the upstream request. *)
Record Payload := mkPayload {
  payload_model : pystr;
  payload_messages : list Turn;
  payload_temperature : option float;
  payload_max_tokens : option Z;
  payload_stream : bool
}.

(** One call [requests.post(url, headers=..., json=..., stream=True, timeout=...)]. *)
Record PostCall := mkPostCall {
  post_url : pystr;
  post_authorization : pystr;
  post_json : Payload;
  post_timeout : Z
}.

(** What the upstream does with a call.  [Refused e]: [requests.post]
    itself raises (no connection, timeout before the status line), with
    [str(e) = e].  [Answered r]: a response arrives; iterating its body
    yields the chunks of [lines] and then either ends or, when [broken] is
    [Some e], raises an exception with text [e] (connection lost, read
    timeout). *)
Record Response := mkResponse {
  status_code : Z;
  reason : pystr;
  url : pystr;
  lines : list (list byte);
  broken : option pystr
}.

Inductive Upstream :=
| Refused (e : pystr)
| Answered (r : Response).

(** What a handler returns: a JSON body [{"status": ..., "response": ...}],
    a [StreamingResponse] wrapping the not yet started generator
    [stream_response(uid, messages, model, temperature, max_tokens)], or an
    exception that escapes the handler. *)
Inductive Reply :=
| Json (status response : pystr)
| Streaming (uid : pystr) (messages : list Turn) (model : option pystr)
            (temperature : option float) (max_tokens : option Z)
| Unhandled.

(** ** State and environment *)

(** [STATS] *)
Record Stats := mkStats { requests : Z; blocked : Z }.

Record World := mkWorld {
  USER_MEMORY : gmap (list N) (list Turn);
  USER_REQUESTS : gmap (list N) (list float);
  STATS : Stats;
  clock_reads : nat;             (* calls of [time.time()] so far *)
  uuid_draws : nat;              (* calls of [uuid.uuid4()] so far *)
  posts : list PostCall;         (* upstream calls made so far, oldest first *)
  error_log : list pystr         (* records written by [logging.error] *)
}.

Record Env := mkEnv {
  API_KEY : pystr;
  time_time : nat -> float;                (* the n-th clock reading *)
  uuid4 : nat -> pystr;                    (* the n-th generated identifier *)
  requests_post : nat -> PostCall -> Upstream;  (* the answer to the n-th call *)
  decode_error : list byte -> pystr        (* text of the UnicodeDecodeError *)
}.

Definition initial : World :=
  mkWorld ∅ ∅ (mkStats 0 0) 0 0 [] [].

Definition set_USER_MEMORY (m : gmap (list N) (list Turn)) (w : World) : World :=
  mkWorld m (USER_REQUESTS w) (STATS w) (clock_reads w) (uuid_draws w)
          (posts w) (error_log w).

Definition set_USER_REQUESTS (m : gmap (list N) (list float)) (w : World) : World :=
  mkWorld (USER_MEMORY w) m (STATS w) (clock_reads w) (uuid_draws w)
          (posts w) (error_log w).

Definition set_STATS (s : Stats) (w : World) : World :=
  mkWorld (USER_MEMORY w) (USER_REQUESTS w) s (clock_reads w) (uuid_draws w)
          (posts w) (error_log w).

Definition set_clock_reads (n : nat) (w : World) : World :=
  mkWorld (USER_MEMORY w) (USER_REQUESTS w) (STATS w) n (uuid_draws w)
          (posts w) (error_log w).

Definition set_uuid_draws (n : nat) (w : World) : World :=
  mkWorld (USER_MEMORY w) (USER_REQUESTS w) (STATS w) (clock_reads w) n
          (posts w) (error_log w).

Definition set_posts (l : list PostCall) (w : World) : World :=
  mkWorld (USER_MEMORY w) (USER_REQUESTS w) (STATS w) (clock_reads w)
          (uuid_draws w) l (error_log w).

Definition set_error_log (l : list pystr) (w : World) : World :=
  mkWorld (USER_MEMORY w) (USER_REQUESTS w) (STATS w) (clock_reads w)
          (uuid_draws w) (posts w) l.

(** ** A state monad over the world *)

Definition M (A : Type) : Type := World -> A * World.

Definition ret {A} (a : A) : M A := fun w => (a, w).

Definition bind {A B} (m : M A) (k : A -> M B) : M B :=
  fun w => let '(a, w1) := m w in k a w1.

Definition gets {A} (f : World -> A) : M A := fun w => (f w, w).

Definition modify (f : World -> World) : M unit := fun w => (tt, f w).

Notation "x <- c1 ;; c2" := (bind c1 (fun x => c2))
  (at level 100, c1 at next level, right associativity).
Notation "c1 ;; c2" := (bind c1 (fun _ => c2))
  (at level 100, right associativity).

(** [d.setdefault(k, v)] on a dictionary. *)
Definition setdefault {V} (k : list N) (v : V) (d : gmap (list N) V) : gmap (list N) V :=
  match d !! k with
  | Some _ => d
  | None => <[k := v]> d
  end.

(** ** Reading one upstream frame *)

(** The body of the inner [try] for one payload [data]: [Some content] when
    the statements run through to [yield content]; [None] when the frame
    yields nothing, because an exception was raised on the way and swallowed
    by the bare [except], or because [delta] has no ["content"]. *)
Definition frame_content (data : pystr) : option pystr :=
  json_data ← json_loads data;
  choices ← getitem_str json_data (str "choices");
  first ← getitem_int choices 0;
  delta ← getitem_str first (str "delta");
  has ← contains_str (str "content") delta;
  if has : bool then
    content ← getitem_str delta (str "content");
    match content with
    | PyStr c => Some c            (* [full_response += content] needs a str *)
    | _ => None
    end
  else None.

(** How the [for] loop over [r.iter_lines()] ends. *)
Inductive Flow :=
| Finished                (* the body ended, or [DONE] was read *)
| Raised (e : pystr).     (* an exception left the loop, [str(e) = e] *)

Section Program.
Context (E : Env).

(** The loop over the chunks of the body, started with [full_response] as
    accumulated so far: the fragments yielded in order, the final
    [full_response], and how the loop ended. *)
Fixpoint relay (chunks : list (list byte)) (broken : option pystr)
    (full_response : pystr) : list pystr * pystr * Flow :=
  match chunks with
  | [] =>
    match broken with
    | Some e => ([], full_response, Raised e)
    | None => ([], full_response, Finished)
    end
  | chunk :: rest =>
    match chunk with
    | [] => relay rest broken full_response
    | _ :: _ =>
      match decode chunk with
      | None => ([], full_response, Raised (decode_error E chunk))
      | Some line =>
        if startswith (str "data: ") line then
          let data := strip (slice_from 6 line) in
          if bool_decide (data = str "[DONE]") then ([], full_response, Finished)
          else
            match frame_content data with
            | Some content =>
              let '(out, full, flow) := relay rest broken (full_response ++ content) in
              (content :: out, full, flow)
            | None => relay rest broken full_response
            end
        else relay rest broken full_response
      end
    end
  end.

(** [time.time()] *)
Definition now : M float :=
  fun w => (time_time E (clock_reads w), set_clock_reads (S (clock_reads w)) w).

(** [uid or str(uuid.uuid4())]: [None] and the empty string are replaced. *)
Definition get_user_id (uid : option pystr) : M pystr :=
  match uid with
  | Some (c :: u) => ret (c :: u)
  | _ => fun w => (uuid4 E (uuid_draws w), set_uuid_draws (S (uuid_draws w)) w)
  end.

(** [[t for t in ts if now() - t < 60]]: the clock is read once per
    stored timestamp. *)
Fixpoint prune (ts : list float) : M (list float) :=
  match ts with
  | [] => ret []
  | t :: r =>
    n <- now ;;
    r' <- prune r ;;
    ret (if (n - t <? 60)%float then t :: r' else r')
  end.

Definition rate_limit (uid : pystr) : M bool :=
  modify (fun w => set_USER_REQUESTS (setdefault uid [] (USER_REQUESTS w)) w) ;;
  window <- gets (fun w => USER_REQUESTS w !!! uid) ;;
  kept <- prune window ;;
  modify (fun w => set_USER_REQUESTS (<[uid := kept]> (USER_REQUESTS w)) w) ;;
  if (REQUESTS_PER_MINUTE <=? Z.of_nat (length kept))%Z then
    modify (fun w => set_STATS (mkStats (requests (STATS w)) (blocked (STATS w) + 1)) w) ;;
    ret false
  else
    n <- now ;;
    modify (fun w =>
      set_USER_REQUESTS (<[uid := (USER_REQUESTS w !!! uid) ++ [n]]> (USER_REQUESTS w)) w) ;;
    ret true.

Definition build_messages (uid msg : pystr) : M (list Turn) :=
  history <- gets (fun w => default [] (USER_MEMORY w !! uid)) ;;
  ret ([mkTurn system BASE_SYSTEM_PROMPT] ++ history ++ [mkTurn user msg]).

Definition save_memory (uid user_msg ai_msg : pystr) : M unit :=
  modify (fun w => set_USER_MEMORY (setdefault uid [] (USER_MEMORY w)) w) ;;
  modify (fun w =>
    set_USER_MEMORY
      (<[uid := (USER_MEMORY w !!! uid)
                  ++ [mkTurn user user_msg; mkTurn assistant ai_msg]]> (USER_MEMORY w)) w) ;;
  modify (fun w =>
    set_USER_MEMORY
      (<[uid := slice_from (- MAX_MEMORY_MESSAGES * 2) (USER_MEMORY w !!! uid)]>
         (USER_MEMORY w)) w).

(** [MODELS.get(model, MODELS["fast"])] *)
Definition MODELS_get (model : option pystr) : pystr :=
  let fallback := MODELS !!! str "fast" in
  default fallback (k ← model; MODELS !! k).

(** [r.raise_for_status()]: the text of the [HTTPError] for a 4xx or 5xx
    status, [None] when nothing is raised. *)
Definition raise_for_status (r : Response) : option pystr :=
  let s := status_code r in
  if ((400 <=? s) && (s <? 500))%Z then
    Some (str (pretty s) ++ str " Client Error: " ++ reason r ++ str " for url: " ++ url r)
  else if ((500 <=? s) && (s <? 600))%Z then
    Some (str (pretty s) ++ str " Server Error: " ++ reason r ++ str " for url: " ++ url r)
  else None.

(** [requests.post(GROQ_URL, headers=headers, json=payload, stream=True, timeout=60)] *)
Definition post (payload : Payload) : M Upstream :=
  fun w =>
    let call := mkPostCall GROQ_URL (str "Bearer " ++ API_KEY E) payload 60 in
    (requests_post E (length (posts w)) call, set_posts (posts w ++ [call]) w).

(** The [except Exception as e] branch, entered after [out] was yielded. *)
Definition on_exception (out : list pystr) (e : pystr) : M (list pystr) :=
  modify (fun w => set_error_log (error_log w ++ [e]) w) ;;
  ret (out ++ [[10; 10]%N ++ str "Error: " ++ e]).

(** The generator [stream_response], driven until it is exhausted: the
    fragments it yields, in order. *)
Definition stream_response (uid : pystr) (messages : list Turn)
    (model : option pystr) (temperature : option float) (max_tokens : option Z) :
    M (list pystr) :=
  let payload := mkPayload (MODELS_get model) messages temperature max_tokens true in
  outcome <- post payload ;;
  match outcome with
  | Refused e => on_exception [] e
  | Answered r =>
    match raise_for_status r with
    | Some e => on_exception [] e
    | None =>
      let '(out, full_response, flow) := relay (lines r) (broken r) [] in
      match flow with
      | Raised e => on_exception out e
      | Finished =>
        match index (-1) messages with
        | None => on_exception out (str "list index out of range")
        | Some m => save_memory uid (content m) full_response ;; ret out
        end
      end
    end
  end.

Definition chat (request : ChatRequest.t) : M Reply :=
  uid <- get_user_id (ChatRequest.uid request) ;;
  let msg := strip (ChatRequest.message request) in
  modify (fun w => set_STATS (mkStats (requests (STATS w) + 1) (blocked (STATS w))) w) ;;
  match msg with
  | [] => ret (Json (str "error") (str "Say something " ++ [0x1F642%N]))
  | _ :: _ =>
    if (MAX_MESSAGE_LENGTH <? Z.of_nat (length msg))%Z
    then ret (Json (str "error") (str "Message too long."))
    else
      ok <- rate_limit uid ;;
      if ok : bool then
        messages <- build_messages uid msg ;;
        ret (Streaming uid messages (ChatRequest.model request)
               (ChatRequest.temperature request) (ChatRequest.max_tokens request))
      else ret (Json (str "limited") (str "Chill for a sec " ++ [0x23F3%N]))
  end.

(** [reset], on the parsed body [data = await request.json()].
    [data.get] exists on a dict only, and [dict.pop] needs a hashable key. *)
Definition reset (data : pyval) : M Reply :=
  match data with
  | PyDict d =>
    let uid := default (PyStr (str "guest")) (dict_get (str "uid") d) in
    match uid with
    | PyList _ | PyDict _ => ret Unhandled
    | PyStr u =>
      modify (fun w => set_USER_MEMORY (delete u (USER_MEMORY w)) w) ;;
      ret (Json (str "success") (str "Chat cleared."))
    | _ => ret (Json (str "success") (str "Chat cleared."))
    end
  | _ => ret Unhandled
  end.

Definition stats : M Stats := gets STATS.

(** What the client of [/v8/chat] receives once the server has sent the
    whole response: the JSON body, or all the fragments of the stream. *)
Inductive Served :=
| Body (status response : pystr)
| Stream (fragments : list pystr)
| Failure.

Definition serve_chat (request : ChatRequest.t) : M Served :=
  reply <- chat request ;;
  match reply with
  | Json s r => ret (Body s r)
  | Streaming uid messages model temperature max_tokens =>
    out <- stream_response uid messages model temperature max_tokens ;;
    ret (Stream out)
  | Unhandled => ret Failure
  end.

End Program.

Arguments rate_limit : simpl never.
Arguments save_memory : simpl never.
Arguments stream_response : simpl never.
Arguments get_user_id : simpl never.
Arguments chat : simpl never.

(** * Properties *)

(** ** Dictionaries and slices *)

Lemma insert_setdefault {V} (k : list N) (x v : V) (d : gmap (list N) V) :
  <[k := v]> (setdefault k x d) = <[k := v]> d.
Proof.
  unfold setdefault. destruct (d !! k); [done |]. apply insert_insert_eq.
Qed.

Lemma setdefault_lookup_total {V} (k : list N) (d : gmap (list N) (list V)) :
  setdefault k [] d !!! k = default [] (d !! k).
Proof.
  unfold setdefault. destruct (d !! k) as [h |] eqn:Hk.
  - by rewrite lookup_total_alt, Hk.
  - by rewrite lookup_total_insert_eq.
Qed.

(** A negative start counts from the end of the list. *)
Lemma slice_from_neg {A} (k : nat) (l : list A) :
  (0 < k)%nat -> slice_from (- Z.of_nat k) l = drop (length l - k) l.
Proof.
  intros Hk. unfold slice_from.
  destruct (Z.ltb_spec (- Z.of_nat k) 0); [| lia].
  f_equal. lia.
Qed.

(** The last [k] elements of a list. *)
Definition lastn {A} (k : nat) (l : list A) : list A := drop (length l - k) l.

Lemma length_lastn {A} (k : nat) (l : list A) :
  length (lastn k l) = Nat.min (length l) k.
Proof. unfold lastn. rewrite length_drop. lia. Qed.

Lemma lastn_app_lastn {A} (k : nat) (l x : list A) :
  lastn k (lastn k l ++ x) = lastn k (l ++ x).
Proof.
  unfold lastn. rewrite !length_app, length_drop.
  destruct (Nat.le_gt_cases (length l) k) as [Hle | Hgt].
  - replace (length l - k)%nat with 0%nat by lia. simpl.
    do 2 f_equal. lia.
  - rewrite (drop_app (drop _ l)), drop_drop, length_drop.
    rewrite (drop_app l).
    f_equal; f_equal; lia.
Qed.

(** ** The conversation memory *)

Definition history (w : World) (uid : pystr) : list Turn :=
  default [] (USER_MEMORY w !! uid).

(** The two turns one exchange adds. *)
Definition exchange (p : pystr * pystr) : list Turn :=
  [mkTurn user p.1; mkTurn assistant p.2].

(** A sequence of commits for one identity, oldest first. *)
Fixpoint commit_all (uid : pystr) (pairs : list (pystr * pystr)) : M unit :=
  match pairs with
  | [] => ret tt
  | p :: r => save_memory uid p.1 p.2 ;; commit_all uid r
  end.

Lemma save_memory_eq (uid user_msg ai_msg : pystr) (w : World) :
  save_memory uid user_msg ai_msg w =
  (tt, set_USER_MEMORY
         (<[uid := lastn 40 (history w uid
                               ++ [mkTurn user user_msg; mkTurn assistant ai_msg])]>
            (USER_MEMORY w)) w).
Proof.
  unfold save_memory, bind, modify, history. cbn.
  rewrite lookup_total_insert_eq, insert_insert_eq.
  rewrite insert_setdefault, setdefault_lookup_total.
  change (- MAX_MEMORY_MESSAGES * 2)%Z with (- Z.of_nat 40)%Z.
  rewrite slice_from_neg by lia. reflexivity.
Qed.

Lemma save_memory_history (uid user_msg ai_msg : pystr) (w : World) :
  history (save_memory uid user_msg ai_msg w).2 uid =
  lastn 40 (history w uid ++ [mkTurn user user_msg; mkTurn assistant ai_msg]).
Proof.
  rewrite save_memory_eq. unfold history at 1. cbn.
  by rewrite lookup_insert_eq.
Qed.

Lemma commit_all_history (uid : pystr) (pairs : list (pystr * pystr)) :
  forall w,
    history w uid = lastn 40 (history w uid) ->
    history (commit_all uid pairs w).2 uid =
    lastn 40 (history w uid ++ flat_map exchange pairs).
Proof.
  induction pairs as [| p r IH]; intros w Hw.
  - cbn. by rewrite app_nil_r.
  - cbn [commit_all]. unfold bind.
    destruct (save_memory uid p.1 p.2 w) as [[] w1] eqn:Hs.
    pose proof (save_memory_history uid p.1 p.2 w) as Hh.
    rewrite Hs in Hh. cbn in Hh.
    rewrite IH.
    + rewrite Hh, lastn_app_lastn. cbn [flat_map].
      by rewrite <- app_assoc.
    + rewrite Hh. unfold lastn at 2. rewrite length_lastn.
      replace (_ - 40)%nat with 0%nat by lia. reflexivity.
Qed.

(** C3. Each commit appends a user turn and then an assistant turn to the
    identity's history and keeps the last [2 * MAX_MEMORY_MESSAGES] turns of
    the result.  Hence, for an identity without history, after the commits
    [pairs] the history has [min (2 * N) (2 * MAX_MEMORY_MESSAGES)] turns,
    where [N] is the number of commits, and these are the most recent turns
    of all those committed, in their original order. *)
Theorem save_memory_keeps_most_recent (uid : pystr) :
  (forall user_msg ai_msg w,
     history (save_memory uid user_msg ai_msg w).2 uid =
     lastn (Z.to_nat (2 * MAX_MEMORY_MESSAGES))
       (history w uid ++ [mkTurn user user_msg; mkTurn assistant ai_msg]))
  /\
  (forall pairs w,
     USER_MEMORY w !! uid = None ->
     let h := history (commit_all uid pairs w).2 uid in
     let all := flat_map exchange pairs in
     length h = Nat.min (2 * length pairs) (Z.to_nat (2 * MAX_MEMORY_MESSAGES))
     /\ h = drop (length all - length h) all).
Proof.
  split.
  - intros. apply save_memory_history.
  - intros pairs w Hnone h all.
    assert (Hempty : history w uid = []) by (unfold history; by rewrite Hnone).
    assert (Hh : h = lastn 40 all).
    { unfold h. rewrite commit_all_history; rewrite Hempty; reflexivity. }
    assert (Hlen : length all = (2 * length pairs)%nat).
    { unfold all. clear. induction pairs; cbn in *; lia. }
    change (Z.to_nat (2 * MAX_MEMORY_MESSAGES)) with 40%nat.
    split.
    + rewrite Hh, length_lastn. lia.
    + rewrite Hh at 1. unfold lastn. f_equal.
      rewrite Hh, length_lastn. lia.
Qed.

Definition three_exchanges : list (pystr * pystr) :=
  [(str "hi", str "hello"); (str "how are you", str "fine"); (str "bye", str "see you")].

Lemma save_memory_keeps_most_recent_witness :
  let h := history (commit_all (str "u1") three_exchanges initial).2 (str "u1") in
  let all := flat_map exchange three_exchanges in
  length h = Nat.min (2 * length three_exchanges) (Z.to_nat (2 * MAX_MEMORY_MESSAGES))
  /\ h = drop (length all - length h) all.
Proof.
  apply (proj2 (save_memory_keeps_most_recent (str "u1")) three_exchanges initial).
  reflexivity.
Defined.

(** ** The rate limiter *)

(** The request window of an identity ([[]] when it has none yet). *)
Definition requests_window (w : World) (uid : pystr) : list float :=
  default [] (USER_REQUESTS w !! uid).

(** A stored timestamp [t] survives pruning when [now - t < 60] holds for
    the clock reading [now] taken when [t] is examined. *)
Definition fresh (now t : float) : bool := (now - t <? 60)%float.
Arguments fresh : simpl never.

(** The timestamps of [ts] that survive when the first one is compared
    with the [n]-th clock reading, the second with the next one, and so on. *)
Fixpoint kept_from (E : Env) (n : nat) (ts : list float) : list float :=
  match ts with
  | [] => []
  | t :: r =>
    if fresh (time_time E n) t then t :: kept_from E (S n) r else kept_from E (S n) r
  end.

Lemma prune_eq (E : Env) (ts : list float) :
  forall w,
    prune E ts w =
    (kept_from E (clock_reads w) ts,
     set_clock_reads (clock_reads w + length ts) w).
Proof.
  induction ts as [| t r IH]; intros w.
  - cbn. unfold ret, set_clock_reads. rewrite Nat.add_0_r. by destruct w.
  - cbn [prune kept_from]. unfold bind, now. rewrite IH. cbn.
    unfold ret, fresh, set_clock_reads. cbn.
    replace (S (clock_reads w + length r)) with (clock_reads w + S (length r))%nat by lia.
    reflexivity.
Qed.

Lemma kept_from_sublist (E : Env) (ts : list float) :
  forall n, sublist (kept_from E n ts) ts.
Proof.
  induction ts as [| t r IH]; intros n; cbn.
  - constructor.
  - case_match; [apply sublist_skip | apply sublist_cons]; apply IH.
Qed.

Lemma kept_from_length (E : Env) (n : nat) (ts : list float) :
  (length (kept_from E n ts) <= length ts)%nat.
Proof. apply sublist_length, kept_from_sublist. Qed.

(** With one and the same reading [now] for every comparison, pruning is a
    filter on [now - t < 60]. *)
Lemma kept_from_constant_clock (E : Env) (now : float) (ts : list float) :
  forall n,
    (forall i, (i < length ts)%nat -> time_time E (n + i) = now) ->
    kept_from E n ts = List.filter (fresh now) ts.
Proof.
  induction ts as [| t r IH]; intros n Hc; [done |].
  cbn. rewrite <- (Hc 0%nat), Nat.add_0_r by (cbn; lia).
  rewrite (IH (S n)).
  - rewrite <- (Hc 0%nat), Nat.add_0_r by (cbn; lia). reflexivity.
  - intros i Hi. rewrite <- (Hc (S i)) by (cbn; lia). f_equal. lia.
Qed.

(** When every stored timestamp is fresh at its reading, nothing is pruned. *)
Lemma kept_from_all_fresh (E : Env) (ts : list float) :
  forall n,
    (forall i t, ts !! i = Some t -> fresh (time_time E (n + i)) t = true) ->
    kept_from E n ts = ts.
Proof.
  induction ts as [| t r IH]; intros n Hf; [done |].
  cbn. pose proof (Hf 0%nat t eq_refl) as H0. rewrite Nat.add_0_r in H0.
  rewrite H0. f_equal. apply IH.
  intros i t' Hi. replace (S n + i)%nat with (n + S i)%nat by lia.
  by apply Hf.
Qed.

(** The world after a rejected and after an accepted call. *)
Definition rejected (uid : pystr) (kept : list float) (reads : nat) (w : World) : World :=
  mkWorld (USER_MEMORY w) (<[uid := kept]> (USER_REQUESTS w))
          (mkStats (requests (STATS w)) (blocked (STATS w) + 1))
          reads (uuid_draws w) (posts w) (error_log w).

Definition accepted (uid : pystr) (kept : list float) (stamp : float) (reads : nat)
    (w : World) : World :=
  mkWorld (USER_MEMORY w) (<[uid := kept ++ [stamp]]> (USER_REQUESTS w))
          (STATS w) (S reads) (uuid_draws w) (posts w) (error_log w).

Lemma rate_limit_eq (E : Env) (uid : pystr) (w : World) :
  let window := requests_window w uid in
  let kept := kept_from E (clock_reads w) window in
  let reads := (clock_reads w + length window)%nat in
  rate_limit E uid w =
  if (REQUESTS_PER_MINUTE <=? Z.of_nat (length kept))%Z
  then (false, rejected uid kept reads w)
  else (true, accepted uid kept (time_time E reads) reads w).
Proof.
  intros window kept reads.
  unfold rate_limit, bind, modify, gets. cbn.
  rewrite setdefault_lookup_total, prune_eq. cbn.
  fold (requests_window w uid). fold window. fold kept. fold reads.
  destruct (REQUESTS_PER_MINUTE <=? Z.of_nat (length kept))%Z; cbn.
  - unfold ret, rejected. by rewrite insert_setdefault.
  - unfold now, ret, accepted. cbn.
    by rewrite lookup_total_insert_eq, insert_insert_eq, insert_setdefault.
Qed.

(** *** Handlers never touch the windows except through [rate_limit] *)

Lemma stream_response_frame (E : Env) uid messages model temperature max_tokens w :
  let w' := (stream_response E uid messages model temperature max_tokens w).2 in
  USER_REQUESTS w' = USER_REQUESTS w /\ STATS w' = STATS w.
Proof.
  unfold stream_response, bind, post. cbn.
  destruct (requests_post E _ _) as [e | r]; [done |].
  destruct (raise_for_status r); [done |].
  destruct (relay E (lines r) (broken r) []) as [[out full] [| e]]; [| done].
  destruct (index (-1) messages) as [m |]; [| done].
  unfold bind. rewrite save_memory_eq. done.
Qed.

Definition windows_bounded (w : World) : Prop :=
  forall uid ts,
    USER_REQUESTS w !! uid = Some ts ->
    (Z.of_nat (length ts) <= REQUESTS_PER_MINUTE)%Z.

Lemma rate_limit_bounded (E : Env) (uid : pystr) (w : World) :
  windows_bounded w -> windows_bounded (rate_limit E uid w).2.
Proof.
  intros Hb. rewrite rate_limit_eq.
  pose proof (kept_from_length E (clock_reads w) (requests_window w uid)) as Hk.
  assert (Hw : (Z.of_nat (length (requests_window w uid)) <= REQUESTS_PER_MINUTE)%Z).
  { unfold requests_window. destruct (USER_REQUESTS w !! uid) eqn:Hu; cbn.
    - by apply (Hb uid).
    - unfold REQUESTS_PER_MINUTE. lia. }
  destruct (Z.leb_spec REQUESTS_PER_MINUTE
              (Z.of_nat (length (kept_from E (clock_reads w) (requests_window w uid)))));
    intros uid' ts; cbn; rewrite lookup_insert; case_decide; intros Hl;
    try (by apply (Hb uid')); simplify_eq.
  - lia.
  - rewrite length_app. cbn. lia.
Qed.

Lemma chat_bounded (E : Env) (request : ChatRequest.t) (w : World) :
  windows_bounded w -> windows_bounded (chat E request w).2.
Proof.
  intros Hb. unfold chat, bind.
  destruct (get_user_id E (ChatRequest.uid request) w) as [uid w1] eqn:Hu.
  assert (Hb1 : windows_bounded w1).
  { unfold get_user_id in Hu. destruct (ChatRequest.uid request) as [[| c u] |];
      inversion Hu; subst; exact Hb. }
  cbn. destruct (strip (ChatRequest.message request)) as [| c msg]; [exact Hb1 |].
  destruct (MAX_MESSAGE_LENGTH <? _)%Z; [exact Hb1 |].
  set (w2 := set_STATS _ w1).
  assert (Hb2 : windows_bounded w2) by exact Hb1.
  pose proof (rate_limit_bounded E uid w2 Hb2) as Hr.
  destruct (rate_limit E uid w2) as [[|] w3]; exact Hr.
Qed.

(** The calls a client can make, and a sequential run of the server. *)
Inductive Call :=
| CallChat (request : ChatRequest.t)
| CallReset (data : pyval)
| CallStats.

Definition handle (E : Env) (c : Call) : M unit :=
  match c with
  | CallChat request => serve_chat E request ;; ret tt
  | CallReset data => reset data ;; ret tt
  | CallStats => stats ;; ret tt
  end.

Fixpoint run (E : Env) (calls : list Call) : M unit :=
  match calls with
  | [] => ret tt
  | c :: r => handle E c ;; run E r
  end.

Lemma handle_bounded (E : Env) (c : Call) (w : World) :
  windows_bounded w -> windows_bounded (handle E c w).2.
Proof.
  intros Hb. destruct c as [request | data |]; unfold handle, bind.
  - unfold serve_chat, bind.
    pose proof (chat_bounded E request w Hb) as Hc.
    destruct (chat E request w) as [[s r | uid ms md t mt |] w1]; cbn in *; try exact Hc.
    pose proof (stream_response_frame E uid ms md t mt w1) as [Hr _].
    destruct (stream_response E uid ms md t mt w1) as [out w2]. cbn in *.
    unfold windows_bounded. rewrite Hr. exact Hc.
  - unfold reset.
    destruct data as [| | | | | |d]; try exact Hb.
    destruct (default _ _); exact Hb.
  - exact Hb.
Qed.

Lemma run_bounded (E : Env) (calls : list Call) :
  forall w, windows_bounded w -> windows_bounded (run E calls w).2.
Proof.
  induction calls as [| c r IH]; intros w Hb; [exact Hb |].
  cbn [run]. unfold bind.
  pose proof (handle_bounded E c w Hb) as Hh.
  destruct (handle E c w) as [[] w1]. by apply IH.
Qed.

(** C2. Every call of the rate limiter prunes the identity's window
    (keeping the timestamps [t] with [now - t < 60] at the clock reading
    taken for [t], which is a plain filter when the clock does not move
    during the call); with [REQUESTS_PER_MINUTE] or more timestamps left
    it adds one to [blocked] and returns [False] without appending,
    otherwise it appends the current time and returns [True].  In every
    state the server reaches from its initial one no window has more than
    [REQUESTS_PER_MINUTE] entries, and a call made while the window holds
    [REQUESTS_PER_MINUTE] timestamps that are all less than 60 seconds old
    is rejected and leaves the window as it was. *)
Theorem rate_limit_sliding_window (E : Env) :
  (forall uid w,
     let kept := kept_from E (clock_reads w) (requests_window w uid) in
     let reads := (clock_reads w + length (requests_window w uid))%nat in
     rate_limit E uid w =
     if (REQUESTS_PER_MINUTE <=? Z.of_nat (length kept))%Z
     then (false, rejected uid kept reads w)
     else (true, accepted uid kept (time_time E reads) reads w))
  /\
  (forall uid w now,
     (forall i, (i < length (requests_window w uid))%nat ->
                time_time E (clock_reads w + i) = now) ->
     kept_from E (clock_reads w) (requests_window w uid) =
     List.filter (fun t => (now - t <? 60)%float) (requests_window w uid))
  /\
  (forall calls uid,
     (Z.of_nat (length (requests_window (run E calls initial).2 uid))
      <= REQUESTS_PER_MINUTE)%Z)
  /\
  (forall uid w,
     Z.of_nat (length (requests_window w uid)) = REQUESTS_PER_MINUTE ->
     (forall i t, requests_window w uid !! i = Some t ->
                  (time_time E (clock_reads w + i) - t <? 60)%float = true) ->
     let r := rate_limit E uid w in
     r.1 = false
     /\ requests_window r.2 uid = requests_window w uid
     /\ blocked (STATS r.2) = (blocked (STATS w) + 1)%Z
     /\ requests (STATS r.2) = requests (STATS w)).
Proof.
  repeat split.
  - intros. apply rate_limit_eq.
  - intros uid w now Hc. by apply kept_from_constant_clock.
  - intros calls uid.
    assert (Hb : windows_bounded (run E calls initial).2).
    { apply run_bounded. intros u ts Hl. cbn in Hl. by rewrite lookup_empty in Hl. }
    unfold requests_window.
    destruct (USER_REQUESTS (run E calls initial).2 !! uid) eqn:Hu; cbn.
    + by apply (Hb uid).
    + unfold REQUESTS_PER_MINUTE. lia.
  - rewrite rate_limit_eq, kept_from_all_fresh by assumption.
    by destruct (Z.leb_spec REQUESTS_PER_MINUTE (Z.of_nat (length (requests_window w uid)))); [| lia].
  - rewrite rate_limit_eq, kept_from_all_fresh by assumption.
    destruct (Z.leb_spec REQUESTS_PER_MINUTE (Z.of_nat (length (requests_window w uid)))); [| lia].
    unfold requests_window at 1. cbn. by rewrite lookup_insert_eq.
  - rewrite rate_limit_eq, kept_from_all_fresh by assumption.
    by destruct (Z.leb_spec REQUESTS_PER_MINUTE (Z.of_nat (length (requests_window w uid)))); [| lia].
  - rewrite rate_limit_eq, kept_from_all_fresh by assumption.
    by destruct (Z.leb_spec REQUESTS_PER_MINUTE (Z.of_nat (length (requests_window w uid)))); [| lia].
Qed.

(** An environment in which the clock stands at 100 seconds and the
    upstream cannot be reached, and a world in which the identity [u1] has
    filled its window 50 seconds before. *)
Definition offline : Env :=
  mkEnv (str "secret") (fun _ => 100%float) (fun _ => str "generated-id")
        (fun _ _ => Refused (str "connection refused"))
        (fun _ => str "invalid start byte").

Definition busy : World :=
  mkWorld ∅ {[ str "u1" := replicate 30 50%float ]} (mkStats 30 0) 30 0 [] [].

Lemma rate_limit_sliding_window_witness :
  (let r := rate_limit offline (str "u1") busy in
   r.1 = false
   /\ requests_window r.2 (str "u1") = requests_window busy (str "u1")
   /\ blocked (STATS r.2) = (blocked (STATS busy) + 1)%Z
   /\ requests (STATS r.2) = requests (STATS busy))
  /\ kept_from offline (clock_reads busy) (requests_window busy (str "u1"))
     = List.filter (fun t => (100 - t <? 60)%float) (requests_window busy (str "u1")).
Proof.
  split.
  - apply (proj2 (proj2 (proj2 (rate_limit_sliding_window offline)))).
    + reflexivity.
    + intros i t Hi.
      assert (Hw : requests_window busy (str "u1") = replicate 30 50%float)
        by reflexivity.
      rewrite Hw in Hi. apply lookup_replicate in Hi as [-> _]. reflexivity.
  - apply (proj1 (proj2 (rate_limit_sliding_window offline))).
    intros i Hi. reflexivity.
Defined.

(** ** The chat handler *)

(** [chat], with its effects spelled out. *)
Lemma chat_eq (E : Env) (request : ChatRequest.t) (w : World) :
  chat E request w =
  let '(uid, w1) := get_user_id E (ChatRequest.uid request) w in
  let msg := strip (ChatRequest.message request) in
  let w2 := set_STATS (mkStats (requests (STATS w1) + 1) (blocked (STATS w1))) w1 in
  match msg with
  | [] => (Json (str "error") (str "Say something " ++ [0x1F642%N]), w2)
  | _ :: _ =>
    if (MAX_MESSAGE_LENGTH <? Z.of_nat (length msg))%Z
    then (Json (str "error") (str "Message too long."), w2)
    else
      let '(ok, w3) := rate_limit E uid w2 in
      if ok : bool
      then (Streaming uid
              ([mkTurn system BASE_SYSTEM_PROMPT] ++ history w3 uid ++ [mkTurn user msg])
              (ChatRequest.model request) (ChatRequest.temperature request)
              (ChatRequest.max_tokens request), w3)
      else (Json (str "limited") (str "Chill for a sec " ++ [0x23F3%N]), w3)
  end.
Proof.
  unfold chat, bind, modify.
  destruct (get_user_id E (ChatRequest.uid request) w) as [uid w1].
  destruct (strip (ChatRequest.message request)) as [| c msg]; [done |].
  destruct (MAX_MESSAGE_LENGTH <? _)%Z; [done |].
  destruct (rate_limit E uid _) as [[|] w3]; done.
Qed.

(** Choosing the identity touches nothing but the uuid counter. *)
Lemma get_user_id_frame (E : Env) (uid : option pystr) (w : World) :
  let w' := (get_user_id E uid w).2 in
  USER_MEMORY w' = USER_MEMORY w /\ USER_REQUESTS w' = USER_REQUESTS w
  /\ STATS w' = STATS w /\ posts w' = posts w /\ clock_reads w' = clock_reads w
  /\ error_log w' = error_log w.
Proof. unfold get_user_id. by destruct uid as [[| c u] |]. Qed.

(** The messages that fail validation. *)
Definition invalid_message (message : pystr) : Prop :=
  strip message = [] \/ (MAX_MESSAGE_LENGTH < Z.of_nat (length (strip message)))%Z.

(** C4 (as amended). A chat request whose trimmed message is empty or
    longer than [MAX_MESSAGE_LENGTH] is answered locally with an ["error"]
    body: no upstream call is made, and the conversation memory, the
    request windows and the [blocked] counter are unchanged.  The
    [requests] counter has been incremented by one all the same. *)
Theorem chat_invalid_message (E : Env) (request : ChatRequest.t) (w : World) :
  invalid_message (ChatRequest.message request) ->
  let r := serve_chat E request w in
  (exists text, r.1 = Body (str "error") text)
  /\ posts r.2 = posts w
  /\ USER_MEMORY r.2 = USER_MEMORY w
  /\ USER_REQUESTS r.2 = USER_REQUESTS w
  /\ blocked (STATS r.2) = blocked (STATS w)
  /\ requests (STATS r.2) = (requests (STATS w) + 1)%Z.
Proof.
  intros Hbad r. unfold r, serve_chat, bind. rewrite chat_eq.
  pose proof (get_user_id_frame E (ChatRequest.uid request) w) as Hf.
  destruct (get_user_id E (ChatRequest.uid request) w) as [uid w1].
  cbn in Hf. destruct Hf as (Hm & Hr & Hs & Hp & _).
  cbv zeta. unfold invalid_message in Hbad.
  destruct (strip (ChatRequest.message request)) as [| c msg] eqn:Hmsg.
  - cbn. rewrite Hm, Hr, Hs, Hp. eauto 10.
  - destruct Hbad as [Hnil | Hlong]; [done |].
    apply Z.ltb_lt in Hlong. rewrite Hlong.
    cbn. rewrite Hm, Hr, Hs, Hp. eauto 10.
Qed.

Definition blank_request : ChatRequest.t :=
  ChatRequest.mk (str "   ") (Some (str "u1")) (Some (str "fast")) None None.

Lemma chat_invalid_message_witness :
  let r := serve_chat offline blank_request initial in
  (exists text, r.1 = Body (str "error") text)
  /\ posts r.2 = posts initial
  /\ USER_MEMORY r.2 = USER_MEMORY initial
  /\ USER_REQUESTS r.2 = USER_REQUESTS initial
  /\ blocked (STATS r.2) = blocked (STATS initial)
  /\ requests (STATS r.2) = (requests (STATS initial) + 1)%Z.
Proof.
  apply (chat_invalid_message offline blank_request initial).
  left. reflexivity.
Defined.

(** C4 as stated fails: after a blank message the [requests] counter is no
    longer what it was. *)
Lemma chat_invalid_message_counts :
  invalid_message (ChatRequest.message blank_request)
  /\ requests (STATS initial) = 0%Z
  /\ requests (STATS (serve_chat offline blank_request initial).2) = 1%Z
  /\ STATS (serve_chat offline blank_request initial).2 <> STATS initial.
Proof.
  split; [by left |]. split; [reflexivity |]. split; [reflexivity |].
  intros H. discriminate H.
Qed.

(** What [chat] does once the message has passed validation: it asks the
    rate limiter, and answers with the stream or with the ["limited"] body. *)
Definition past_validation (E : Env) (request : ChatRequest.t) (w : World) :
    Reply * World :=
  let id := get_user_id E (ChatRequest.uid request) w in
  let counted :=
    set_STATS (mkStats (requests (STATS id.2) + 1) (blocked (STATS id.2))) id.2 in
  let verdict := rate_limit E id.1 counted in
  if verdict.1
  then (Streaming id.1
          ([mkTurn system BASE_SYSTEM_PROMPT] ++ history verdict.2 id.1
             ++ [mkTurn user (strip (ChatRequest.message request))])
          (ChatRequest.model request) (ChatRequest.temperature request)
          (ChatRequest.max_tokens request), verdict.2)
  else (Json (str "limited") (str "Chill for a sec " ++ [0x23F3%N]), verdict.2).

(** What [chat] does with a message that is too long. *)
Definition too_long (E : Env) (request : ChatRequest.t) (w : World) : Reply * World :=
  let id := get_user_id E (ChatRequest.uid request) w in
  (Json (str "error") (str "Message too long."),
   set_STATS (mkStats (requests (STATS id.2) + 1) (blocked (STATS id.2))) id.2).

(** C8. A trimmed message of exactly [MAX_MESSAGE_LENGTH] characters passes
    validation: the handler goes on to the rate limiter and answers with
    the stream or with the ["limited"] body, as the limiter decides.  A
    trimmed message of [MAX_MESSAGE_LENGTH + 1] characters is rejected with
    the ["error"] body "Message too long.". *)
Theorem chat_length_boundary (E : Env) (request : ChatRequest.t) (w : World) :
  (Z.of_nat (length (strip (ChatRequest.message request))) = MAX_MESSAGE_LENGTH ->
   chat E request w = past_validation E request w
   /\ forall text, (chat E request w).1 <> Json (str "error") text)
  /\
  (Z.of_nat (length (strip (ChatRequest.message request))) = (MAX_MESSAGE_LENGTH + 1)%Z ->
   chat E request w = too_long E request w).
Proof.
  rewrite chat_eq. unfold past_validation, too_long.
  destruct (get_user_id E (ChatRequest.uid request) w) as [uid w1].
  cbv zeta. cbn [fst snd].
  destruct (strip (ChatRequest.message request)) as [| c m];
    (split; intros Hlen; [discriminate Hlen || idtac | discriminate Hlen || idtac]).
  - destruct (Z.ltb_spec MAX_MESSAGE_LENGTH (Z.of_nat (length (c :: m)))); [lia |].
    by destruct (rate_limit E uid _) as [[|] w3].
  - destruct (Z.ltb_spec MAX_MESSAGE_LENGTH (Z.of_nat (length (c :: m)))); [done | lia].
Qed.

Definition request_of_length (n : nat) : ChatRequest.t :=
  ChatRequest.mk (replicate n 97%N) (Some (str "u1")) (Some (str "fast")) None None.

Lemma chat_length_boundary_witness :
  (chat offline (request_of_length 3000) initial
     = past_validation offline (request_of_length 3000) initial
   /\ forall text,
        (chat offline (request_of_length 3000) initial).1 <> Json (str "error") text)
  /\ chat offline (request_of_length 3001) initial
    = too_long offline (request_of_length 3001) initial.
Proof.
  split.
  - apply (proj1 (chat_length_boundary offline (request_of_length 3000) initial)).
    vm_compute. reflexivity.
  - apply (proj2 (chat_length_boundary offline (request_of_length 3001) initial)).
    vm_compute. reflexivity.
Defined.

(** ** The streaming relay *)

(** What one chunk of the body does to the loop. *)
Inductive Step :=
| Skip                  (* nothing is yielded, the loop goes on *)
| Emit (content : pystr) (* [content] is accumulated and yielded *)
| Stop                  (* [DONE]: the loop is left *)
| Crash (e : pystr).    (* an exception leaves the loop *)

(** The payload of a chunk that decodes to a line starting with ["data: "]. *)
Definition payload_of (chunk : list byte) : option pystr :=
  line ← decode chunk;
  if startswith (str "data: ") line then Some (strip (slice_from 6 line)) else None.

Definition chunk_step (E : Env) (chunk : list byte) : Step :=
  match chunk with
  | [] => Skip
  | _ :: _ =>
    match decode chunk with
    | None => Crash (decode_error E chunk)
    | Some _ =>
      match payload_of chunk with
      | None => Skip
      | Some data =>
        if bool_decide (data = str "[DONE]") then Stop
        else match frame_content data with Some c => Emit c | None => Skip end
      end
    end
  end.

Lemma relay_cons (E : Env) (chunk : list byte) (rest : list (list byte))
    (broken : option pystr) (full : pystr) :
  relay E (chunk :: rest) broken full =
  match chunk_step E chunk with
  | Skip => relay E rest broken full
  | Emit c =>
    let '(out, full', flow) := relay E rest broken (full ++ c) in (c :: out, full', flow)
  | Stop => ([], full, Finished)
  | Crash e => ([], full, Raised e)
  end.
Proof.
  unfold chunk_step, payload_of. cbn [relay].
  destruct chunk as [| b chunk]; [done |].
  destruct (decode (b :: chunk)) as [line |]; [| done]. cbn [mbind option_bind].
  destruct (startswith (str "data: ") line); [| done].
  destruct (bool_decide _); [done |].
  by destruct (frame_content _).
Qed.

(** A frame that carries the text [c], and a frame whose payload is not
    the end marker and is not JSON. *)
Definition valid_frame (chunk : list byte) (c : pystr) : Prop :=
  exists data,
    payload_of chunk = Some data /\ data <> str "[DONE]" /\ frame_content data = Some c.

Definition malformed_frame (chunk : list byte) : Prop :=
  exists data,
    payload_of chunk = Some data /\ data <> str "[DONE]" /\ json_loads data = None.

Lemma payload_of_nonempty (chunk : list byte) (data : pystr) :
  payload_of chunk = Some data -> exists line, chunk <> [] /\ decode chunk = Some line.
Proof.
  unfold payload_of. destruct chunk as [| b chunk]; [done |].
  destruct (decode (b :: chunk)) as [line |]; [| done]. eauto.
Qed.

Lemma valid_frame_step (E : Env) (chunk : list byte) (c : pystr) :
  valid_frame chunk c -> chunk_step E chunk = Emit c.
Proof.
  intros (data & Hp & Hd & Hc). unfold chunk_step.
  destruct (payload_of_nonempty _ _ Hp) as (line & Hne & Hl).
  destruct chunk; [done |]. rewrite Hl, Hp, Hc.
  by rewrite bool_decide_eq_false_2.
Qed.

Lemma malformed_frame_step (E : Env) (chunk : list byte) :
  malformed_frame chunk -> chunk_step E chunk = Skip.
Proof.
  intros (data & Hp & Hd & Hj). unfold chunk_step.
  destruct (payload_of_nonempty _ _ Hp) as (line & Hne & Hl).
  destruct chunk; [done |]. rewrite Hl, Hp.
  rewrite bool_decide_eq_false_2 by done.
  unfold frame_content. by rewrite Hj.
Qed.

(** A chunk that yields nothing can be dropped from the body. *)
Lemma relay_skip (E : Env) (bad : list byte) (after : list (list byte))
    (broken : option pystr) (before : list (list byte)) :
  chunk_step E bad = Skip ->
  forall full,
    relay E (before ++ bad :: after) broken full = relay E (before ++ after) broken full.
Proof.
  intros Hbad. induction before as [| c before IH]; intros full.
  - cbn [app]. by rewrite relay_cons, Hbad.
  - rewrite <- !app_comm_cons, !relay_cons.
    destruct (chunk_step E c); try done. by rewrite IH.
Qed.

(** A body of valid frames yields their texts, accumulates them, and ends
    the loop normally. *)
Lemma relay_valid (E : Env) (chunks : list (list byte)) (cs : list pystr) :
  Forall2 valid_frame chunks cs ->
  forall full, relay E chunks None full = (cs, full ++ concat cs, Finished).
Proof.
  induction 1 as [| chunk c chunks cs Hv _ IH]; intros full.
  - cbn. by rewrite app_nil_r.
  - rewrite relay_cons, (valid_frame_step E chunk c Hv), IH.
    cbn. by rewrite app_assoc.
Qed.

(** *** The generator as a whole *)

(** The one upstream call a stream makes. *)
Definition upstream_call (E : Env) (messages : list Turn) (model : option pystr)
    (temperature : option float) (max_tokens : option Z) : PostCall :=
  mkPostCall GROQ_URL (str "Bearer " ++ API_KEY E)
    (mkPayload (MODELS_get model) messages temperature max_tokens true) 60.

(** The fragment that reports an exception with text [e]. *)
Definition error_prefix : pystr := [10; 10]%N ++ str "Error: ".
Definition error_fragment (e : pystr) : pystr := error_prefix ++ e.

(** When the upstream outcome makes the stream fail: the fragments yielded
    before the failure and the text of the exception. *)
Definition failure_of (E : Env) (u : Upstream) : option (list pystr * pystr) :=
  match u with
  | Refused e => Some ([], e)
  | Answered r =>
    match raise_for_status r with
    | Some e => Some ([], e)
    | None =>
      match relay E (lines r) (broken r) [] with
      | (out, _, Raised e) => Some (out, e)
      | (_, _, Finished) => None
      end
    end
  end.

Lemma stream_response_failed (E : Env) uid messages model temperature max_tokens w out e :
  failure_of E (requests_post E (length (posts w))
                  (upstream_call E messages model temperature max_tokens)) = Some (out, e) ->
  stream_response E uid messages model temperature max_tokens w =
  (out ++ [error_fragment e],
   mkWorld (USER_MEMORY w) (USER_REQUESTS w) (STATS w) (clock_reads w) (uuid_draws w)
           (posts w ++ [upstream_call E messages model temperature max_tokens])
           (error_log w ++ [e])).
Proof.
  unfold stream_response, bind, post, failure_of.
  fold (upstream_call E messages model temperature max_tokens).
  destruct (requests_post E _ _) as [e' | r].
  - intros [= <- <-]. reflexivity.
  - destruct (raise_for_status r) as [e' |].
    + intros [= <- <-]. reflexivity.
    + destruct (relay E (lines r) (broken r) []) as [[out' full] [| e']]; [done |].
      intros [= <- <-]. reflexivity.
Qed.

Lemma stream_response_finished (E : Env) uid messages model temperature max_tokens w
    r out full m :
  requests_post E (length (posts w))
    (upstream_call E messages model temperature max_tokens) = Answered r ->
  raise_for_status r = None ->
  relay E (lines r) (broken r) [] = (out, full, Finished) ->
  index (-1) messages = Some m ->
  stream_response E uid messages model temperature max_tokens w =
  (out,
   mkWorld (<[uid := lastn 40 (history w uid
                                 ++ [mkTurn user (content m); mkTurn assistant full])]>
              (USER_MEMORY w))
           (USER_REQUESTS w) (STATS w) (clock_reads w) (uuid_draws w)
           (posts w ++ [upstream_call E messages model temperature max_tokens])
           (error_log w)).
Proof.
  intros Hr Hs Hl Hm. unfold stream_response, bind, post.
  fold (upstream_call E messages model temperature max_tokens).
  rewrite Hr, Hs, Hl, Hm. unfold bind. rewrite save_memory_eq. reflexivity.
Qed.

Lemma index_last {A} (l : list A) (x : A) : index (-1) (l ++ [x]) = Some x.
Proof.
  unfold index. rewrite length_app. cbn [length].
  destruct (Z.ltb_spec (-1) 0); [| lia].
  replace (_ && _)%Z with true.
  - apply list_lookup_middle. lia.
  - symmetry. apply andb_true_iff. split; [apply Z.leb_le | apply Z.ltb_lt]; lia.
Qed.

Lemma lastn_app_short {A} (k : nat) (l x : list A) :
  (length x <= k)%nat -> lastn k (l ++ x) = lastn (k - length x) l ++ x.
Proof.
  intros Hk. unfold lastn. rewrite length_app, drop_app.
  f_equal; [f_equal; lia |].
  replace (_ - _ - _)%nat with 0%nat by lia. reflexivity.
Qed.

(** *** Concrete frames *)

Definition bytes (s : string) : list byte := list_byte_of_string s.
Definition quoted_bytes (s : string) : list byte := [x22] ++ bytes s ++ [x22].

(** The frame [data: {"choices":[{"delta":{"content":"c"}}]}]. *)
Definition content_frame (c : string) : list byte :=
  bytes "data: {" ++ quoted_bytes "choices" ++ bytes ":[{" ++ quoted_bytes "delta"
    ++ bytes ":{" ++ quoted_bytes "content" ++ bytes ":" ++ quoted_bytes c
    ++ bytes "}}]}".

(** The frames [data: [DONE]] and [data: {garbage]. *)
Definition done_frame : list byte := bytes "data: [DONE]".
Definition garbage_frame : list byte := bytes "data: {garbage".

Lemma content_frame_A : valid_frame (content_frame "A") (str "A").
Proof.
  eexists. split; [vm_compute; reflexivity |].
  split; [intros H; vm_compute in H; discriminate H | vm_compute; reflexivity].
Qed.

Lemma content_frame_B : valid_frame (content_frame "B") (str "B").
Proof.
  eexists. split; [vm_compute; reflexivity |].
  split; [intros H; vm_compute in H; discriminate H | vm_compute; reflexivity].
Qed.

Lemma garbage_frame_malformed : malformed_frame garbage_frame.
Proof.
  eexists. split; [vm_compute; reflexivity |].
  split; [intros H; vm_compute in H; discriminate H | vm_compute; reflexivity].
Qed.

Lemma done_frame_step (E : Env) : chunk_step E done_frame = Stop.
Proof. vm_compute. reflexivity. Qed.

(** The body [A, B, DONE]: whatever follows the end marker is never read. *)
Lemma relay_A_B_done (E : Env) (broken : option pystr) (full : pystr) :
  relay E [content_frame "A"; content_frame "B"; done_frame] broken full =
  ([str "A"; str "B"], full ++ str "AB", Finished).
Proof.
  rewrite relay_cons, (valid_frame_step E _ _ content_frame_A).
  rewrite relay_cons, (valid_frame_step E _ _ content_frame_B).
  rewrite relay_cons, done_frame_step.
  by rewrite <- app_assoc.
Qed.

(** C1. When the upstream answers the call of a stream with a response
    whose status raises nothing and whose body delivers exactly the frames
    [data: {"choices":[{"delta":{"content":"A"}}]}],
    [data: {"choices":[{"delta":{"content":"B"}}]}] and [data: [DONE]], the
    streamer yields the fragments ["A"] and ["B"], in that order, and the
    identity's history then ends with a user turn holding the text of the
    last message of the request and an assistant turn with content ["AB"]. *)
Theorem stream_response_roundtrip (E : Env) (uid : pystr) (prior : list Turn)
    (m : Turn) (model : option pystr) (temperature : option float)
    (max_tokens : option Z) (w : World) (r : Response) :
  requests_post E (length (posts w))
    (upstream_call E (prior ++ [m]) model temperature max_tokens) = Answered r ->
  raise_for_status r = None ->
  lines r = [content_frame "A"; content_frame "B"; done_frame] ->
  let s := stream_response E uid (prior ++ [m]) model temperature max_tokens w in
  s.1 = [str "A"; str "B"]
  /\ exists older,
       history s.2 uid
       = older ++ [mkTurn user (content m); mkTurn assistant (str "AB")].
Proof.
  intros Hr Hs Hl s. unfold s.
  rewrite (stream_response_finished E uid _ model temperature max_tokens w r
             [str "A"; str "B"] (str "AB") m Hr Hs);
    [| rewrite Hl; apply relay_A_B_done | apply index_last].
  split; [reflexivity |].
  unfold history at 1. cbn [USER_MEMORY snd]. rewrite lookup_insert_eq. cbn [default].
  rewrite lastn_app_short by (cbn; lia). eauto.
Qed.

(** An upstream that answers every call with the three frames. *)
Definition answers_A_B : Env :=
  mkEnv (str "secret") (fun _ => 100%float) (fun _ => str "generated-id")
        (fun _ _ => Answered (mkResponse 200 (str "OK") GROQ_URL
                                [content_frame "A"; content_frame "B"; done_frame] None))
        (fun _ => str "invalid start byte").

Lemma stream_response_roundtrip_witness :
  let s := stream_response answers_A_B (str "u1")
             ([mkTurn system BASE_SYSTEM_PROMPT] ++ [mkTurn user (str "hi")])
             (Some (str "fast")) None None initial in
  s.1 = [str "A"; str "B"]
  /\ exists older,
       history s.2 (str "u1")
       = older ++ [mkTurn user (content (mkTurn user (str "hi")));
                   mkTurn assistant (str "AB")].
Proof.
  apply (stream_response_roundtrip answers_A_B (str "u1")
           [mkTurn system BASE_SYSTEM_PROMPT] (mkTurn user (str "hi"))
           (Some (str "fast")) None None initial
           (mkResponse 200 (str "OK") GROQ_URL
              [content_frame "A"; content_frame "B"; done_frame] None));
    reflexivity.
Defined.

(** C7. A frame whose payload is not JSON (and is not the end marker)
    changes nothing: the loop gives the same fragments, the same
    accumulated text and the same ending as without it.  Between valid
    frames it is skipped, the stream is not aborted, and exactly the texts
    of the valid frames are yielded and committed.  [data: {garbage] is
    such a frame. *)
Theorem malformed_frame_skipped (E : Env) :
  (forall before bad after broken full,
     malformed_frame bad ->
     relay E (before ++ bad :: after) broken full = relay E (before ++ after) broken full)
  /\
  (forall before bad after cs1 cs2,
     Forall2 valid_frame before cs1 ->
     malformed_frame bad ->
     Forall2 valid_frame after cs2 ->
     relay E (before ++ bad :: after) None [] = (cs1 ++ cs2, concat (cs1 ++ cs2), Finished))
  /\
  (forall uid prior m model temperature max_tokens w r before bad after cs1 cs2,
     requests_post E (length (posts w))
       (upstream_call E (prior ++ [m]) model temperature max_tokens) = Answered r ->
     raise_for_status r = None ->
     lines r = before ++ bad :: after ->
     broken r = None ->
     Forall2 valid_frame before cs1 ->
     malformed_frame bad ->
     Forall2 valid_frame after cs2 ->
     let s := stream_response E uid (prior ++ [m]) model temperature max_tokens w in
     s.1 = cs1 ++ cs2
     /\ history s.2 uid
        = lastn 40 (history w uid
                      ++ [mkTurn user (content m); mkTurn assistant (concat (cs1 ++ cs2))]))
  /\ malformed_frame garbage_frame.
Proof.
  assert (Hrelay : forall before bad after cs1 cs2,
            Forall2 valid_frame before cs1 -> malformed_frame bad ->
            Forall2 valid_frame after cs2 ->
            relay E (before ++ bad :: after) None []
            = (cs1 ++ cs2, concat (cs1 ++ cs2), Finished)).
  { intros before bad after cs1 cs2 H1 Hbad H2.
    rewrite relay_skip by by apply malformed_frame_step.
    by rewrite (relay_valid E (before ++ after) (cs1 ++ cs2)) by by apply Forall2_app. }
  split; [| split; [exact Hrelay | split; [| exact garbage_frame_malformed]]].
  - intros before bad after broken full Hbad.
    apply relay_skip. by apply malformed_frame_step.
  - intros uid prior m model temperature max_tokens w r before bad after cs1 cs2
      Hr Hs Hl Hb H1 Hbad H2 s. unfold s.
    rewrite (stream_response_finished E uid _ model temperature max_tokens w r
               (cs1 ++ cs2) (concat (cs1 ++ cs2)) m Hr Hs);
      [| rewrite Hl, Hb; by apply Hrelay | apply index_last].
    split; [reflexivity |].
    unfold history at 1. cbn [USER_MEMORY snd]. by rewrite lookup_insert_eq.
Qed.

(** An upstream that answers every call with a malformed frame between two
    valid ones. *)
Definition answers_A_garbage_B : Response :=
  mkResponse 200 (str "OK") GROQ_URL
    ([content_frame "A"] ++ garbage_frame :: [content_frame "B"]) None.

Definition garbled : Env :=
  mkEnv (str "secret") (fun _ => 100%float) (fun _ => str "generated-id")
        (fun _ _ => Answered answers_A_garbage_B)
        (fun _ => str "invalid start byte").

Lemma malformed_frame_skipped_witness :
  relay offline ([content_frame "A"] ++ garbage_frame :: [content_frame "B"]) None []
  = ([str "A"] ++ [str "B"], concat ([str "A"] ++ [str "B"]), Finished)
  /\
  (let s := stream_response garbled (str "u1")
              ([mkTurn system BASE_SYSTEM_PROMPT] ++ [mkTurn user (str "hi")])
              (Some (str "fast")) None None initial in
   s.1 = [str "A"] ++ [str "B"]
   /\ history s.2 (str "u1")
      = lastn 40 (history initial (str "u1")
                    ++ [mkTurn user (content (mkTurn user (str "hi")));
                        mkTurn assistant (concat ([str "A"] ++ [str "B"]))])).
Proof.
  split.
  - apply (proj1 (proj2 (malformed_frame_skipped offline))).
    + repeat constructor. exact content_frame_A.
    + exact garbage_frame_malformed.
    + repeat constructor. exact content_frame_B.
  - apply (proj1 (proj2 (proj2 (malformed_frame_skipped garbled))) (str "u1")
             [mkTurn system BASE_SYSTEM_PROMPT] (mkTurn user (str "hi"))
             (Some (str "fast")) None None initial answers_A_garbage_B
             [content_frame "A"] garbage_frame [content_frame "B"]).
    + reflexivity.
    + reflexivity.
    + reflexivity.
    + reflexivity.
    + repeat constructor. exact content_frame_A.
    + exact garbage_frame_malformed.
    + repeat constructor. exact content_frame_B.
Defined.

(** *** Transport failures *)

(** A body of valid frames that breaks off: the texts are yielded, then
    the exception leaves the loop. *)
Lemma relay_valid_broken (E : Env) (chunks : list (list byte)) (cs : list pystr)
    (e : pystr) :
  Forall2 valid_frame chunks cs ->
  forall full, relay E chunks (Some e) full = (cs, full ++ concat cs, Raised e).
Proof.
  induction 1 as [| chunk c chunks cs Hv _ IH]; intros full.
  - cbn. by rewrite app_nil_r.
  - rewrite relay_cons, (valid_frame_step E chunk c Hv), IH.
    cbn. by rewrite app_assoc.
Qed.

Lemma raise_for_status_error (r : Response) :
  (400 <= status_code r < 600)%Z <-> exists e, raise_for_status r = Some e.
Proof.
  unfold raise_for_status.
  destruct (Z.leb_spec 400 (status_code r)), (Z.ltb_spec (status_code r) 500),
    (Z.leb_spec 500 (status_code r)), (Z.ltb_spec (status_code r) 600);
    cbn; split; try lia; eauto; intros [e He]; discriminate He.
Qed.

(** C5 (as amended). When the stream ends in a transport failure (the call
    is refused, the status is an error status, or the body breaks off),
    nothing is committed: [save_memory] is not reached and the conversation
    memory of every identity is what it was.  The error fragment goes to
    the client only. *)
Theorem transport_failure_commits_nothing (E : Env) (uid : pystr)
    (messages : list Turn) (model : option pystr) (temperature : option float)
    (max_tokens : option Z) (w : World) (out : list pystr) (e : pystr) :
  failure_of E (requests_post E (length (posts w))
                  (upstream_call E messages model temperature max_tokens))
    = Some (out, e) ->
  let s := stream_response E uid messages model temperature max_tokens w in
  USER_MEMORY s.2 = USER_MEMORY w
  /\ s.1 = out ++ [error_fragment e]
  /\ error_log s.2 = error_log w ++ [e].
Proof.
  intros Hf s. unfold s. by rewrite (stream_response_failed _ _ _ _ _ _ _ _ _ Hf).
Qed.

Definition hi_messages : list Turn :=
  [mkTurn system BASE_SYSTEM_PROMPT; mkTurn user (str "hi")].

Lemma transport_failure_commits_nothing_witness :
  let s := stream_response offline (str "u1") hi_messages (Some (str "fast"))
             None None initial in
  USER_MEMORY s.2 = USER_MEMORY initial
  /\ s.1 = [] ++ [error_fragment (str "connection refused")]
  /\ error_log s.2 = error_log initial ++ [str "connection refused"].
Proof.
  apply (transport_failure_commits_nothing offline (str "u1") hi_messages
           (Some (str "fast")) None None initial [] (str "connection refused")).
  reflexivity.
Defined.

(** C5 as stated fails: with the upstream unreachable the stream ends in a
    transport failure, and the identity's history holds no committed turn,
    whatever the assistant text is taken to be. *)
Lemma transport_failure_commits_turn_counterexample :
  let s := stream_response offline (str "u1") hi_messages (Some (str "fast"))
             None None initial in
  requests_post offline (length (posts initial))
    (upstream_call offline hi_messages (Some (str "fast")) None None)
    = Refused (str "connection refused")
  /\ history s.2 (str "u1") = []
  /\ forall ai_msg,
       history s.2 (str "u1")
       <> lastn 40 (history initial (str "u1")
                      ++ [mkTurn user (str "hi"); mkTurn assistant ai_msg]).
Proof.
  split; [reflexivity |]. split; [reflexivity |].
  intros ai_msg H. apply (f_equal length) in H.
  vm_compute in H. discriminate H.
Qed.

(** Every stream makes one upstream call, and only one. *)
Lemma stream_response_posts (E : Env) uid messages model temperature max_tokens w :
  posts (stream_response E uid messages model temperature max_tokens w).2
  = posts w ++ [upstream_call E messages model temperature max_tokens].
Proof.
  unfold stream_response, bind, post.
  fold (upstream_call E messages model temperature max_tokens).
  destruct (requests_post E _ _) as [e | r]; [done |].
  destruct (raise_for_status r); [done |].
  destruct (relay E (lines r) (broken r) []) as [[out full] [| e]]; [| done].
  destruct (index (-1) messages) as [m |]; [| done].
  unfold bind. by rewrite save_memory_eq.
Qed.

(** C6 (as amended). A stream makes exactly one upstream call, whatever
    happens.  When the call is refused (connection error, timeout), when
    the response has a 4xx or 5xx status, or when the body breaks off
    (connection lost, read timeout), the fragments are those yielded so far
    followed by exactly one error fragment, which starts with
    [error_prefix]; then the generator ends.  A response with any other
    status raises nothing. *)
Theorem transport_failure_one_error_fragment (E : Env) (uid : pystr)
    (messages : list Turn) (model : option pystr) (temperature : option float)
    (max_tokens : option Z) (w : World) :
  let call := upstream_call E messages model temperature max_tokens in
  let answer := requests_post E (length (posts w)) call in
  let s := stream_response E uid messages model temperature max_tokens w in
  posts s.2 = posts w ++ [call]
  /\ (forall e, answer = Refused e -> s.1 = [error_prefix ++ e])
  /\ (forall r, answer = Answered r -> (400 <= status_code r < 600)%Z ->
                exists e, s.1 = [error_prefix ++ e])
  /\ (forall r cs e,
        answer = Answered r -> ~ (400 <= status_code r < 600)%Z ->
        Forall2 valid_frame (lines r) cs -> broken r = Some e ->
        s.1 = cs ++ [error_prefix ++ e])
  /\ (forall r out full e,
        answer = Answered r -> ~ (400 <= status_code r < 600)%Z ->
        relay E (lines r) (broken r) [] = (out, full, Raised e) ->
        s.1 = out ++ [error_prefix ++ e])
  /\ (forall r, ~ (400 <= status_code r < 600)%Z -> raise_for_status r = None).
Proof.
  intros call answer s.
  assert (Hnone : forall r, ~ (400 <= status_code r < 600)%Z -> raise_for_status r = None).
  { intros r Hs. destruct (raise_for_status r) as [e |] eqn:He; [| done].
    destruct Hs. apply raise_for_status_error. eauto. }
  assert (Hfail : forall out e, failure_of E answer = Some (out, e) ->
                                s.1 = out ++ [error_prefix ++ e]).
  { intros out e Hf. unfold s. by rewrite (stream_response_failed _ _ _ _ _ _ _ _ _ Hf). }
  split; [| split; [| split; [| split; [| split; [| exact Hnone]]]]].
  - apply stream_response_posts.
  - intros e He. apply (Hfail [] e). by rewrite He.
  - intros r Hr Hs. apply raise_for_status_error in Hs as [e He].
    exists e. apply (Hfail [] e). rewrite Hr. cbn. by rewrite He.
  - intros r cs e Hr Hs Hv Hb. apply Hfail. rewrite Hr. cbn.
    by rewrite (Hnone r Hs), Hb, (relay_valid_broken E _ _ e Hv).
  - intros r out full e Hr Hs Hl. apply Hfail. rewrite Hr. cbn.
    by rewrite (Hnone r Hs), Hl.
Qed.

(** An upstream that refuses the credential, and one whose body breaks off
    after a first frame. *)
Definition unauthorized : Env :=
  mkEnv (str "secret") (fun _ => 100%float) (fun _ => str "generated-id")
        (fun _ _ => Answered (mkResponse 401 (str "Unauthorized") GROQ_URL [] None))
        (fun _ => str "invalid start byte").

Definition cut_off_response : Response :=
  mkResponse 200 (str "OK") GROQ_URL [content_frame "A"] (Some (str "Read timed out.")).

Definition cut_off : Env :=
  mkEnv (str "secret") (fun _ => 100%float) (fun _ => str "generated-id")
        (fun _ _ => Answered cut_off_response)
        (fun _ => str "invalid start byte").

Lemma transport_failure_one_error_fragment_witness :
  (stream_response offline (str "u1") hi_messages (Some (str "fast"))
     None None initial).1
  = [error_prefix ++ str "connection refused"]
  /\ (exists e,
        (stream_response unauthorized (str "u1") hi_messages (Some (str "fast"))
           None None initial).1
        = [error_prefix ++ e])
  /\ (stream_response cut_off (str "u1") hi_messages (Some (str "fast"))
        None None initial).1
     = [str "A"] ++ [error_prefix ++ str "Read timed out."].
Proof.
  split; [| split].
  - apply (proj1 (proj2 (transport_failure_one_error_fragment offline (str "u1")
                           hi_messages (Some (str "fast")) None None initial))).
    reflexivity.
  - apply (proj1 (proj2 (proj2 (transport_failure_one_error_fragment unauthorized
                                  (str "u1") hi_messages (Some (str "fast"))
                                  None None initial)))
             (mkResponse 401 (str "Unauthorized") GROQ_URL [] None)).
    + reflexivity.
    + cbn. lia.
  - apply (proj1 (proj2 (proj2 (proj2 (transport_failure_one_error_fragment cut_off
                                         (str "u1") hi_messages (Some (str "fast"))
                                         None None initial))))
             cut_off_response).
    + reflexivity.
    + cbn. lia.
    + repeat constructor. exact content_frame_A.
    + reflexivity.
Defined.

(** An upstream that answers every call with status 304 and an empty body. *)
Definition not_modified : Env :=
  mkEnv (str "secret") (fun _ => 100%float) (fun _ => str "generated-id")
        (fun _ _ => Answered (mkResponse 304 (str "Not Modified") GROQ_URL [] None))
        (fun _ => str "invalid start byte").

(** C6 as stated fails: a response whose status is not 2xx, here 304, gives
    a stream without any fragment, hence without an error fragment, and the
    (empty) answer is committed. *)
Lemma non_2xx_status_counterexample :
  let s := stream_response not_modified (str "u1") hi_messages (Some (str "fast"))
             None None initial in
  (exists r,
     requests_post not_modified (length (posts initial))
       (upstream_call not_modified hi_messages (Some (str "fast")) None None)
     = Answered r
     /\ ~ (200 <= status_code r < 300)%Z)
  /\ s.1 = []
  /\ history s.2 (str "u1") = [mkTurn user (str "hi"); mkTurn assistant []].
Proof.
  split; [| split; reflexivity].
  eexists. split; [reflexivity |]. cbn. lia.
Qed.

(** ** The reset handler *)

Definition cleared : Reply := Json (str "success") (str "Chat cleared.").

Lemma reset_uid (uid : pystr) (d : list (pystr * pyval)) (w : World) :
  dict_get (str "uid") d = Some (PyStr uid) ->
  reset (PyDict d) w = (cleared, set_USER_MEMORY (delete uid (USER_MEMORY w)) w).
Proof. intros Hd. unfold reset. by rewrite Hd. Qed.

Lemma set_USER_MEMORY_id (w : World) : set_USER_MEMORY (USER_MEMORY w) w = w.
Proof. by destruct w. Qed.

(** C9. [reset] for an identity removes its history entirely and answers
    with the success body; the histories of the other identities, the
    request windows and the counters are untouched.  It is idempotent: for
    an identity without history nothing fails, the answer is the same and
    the state does not change, and a second reset gives the same answer and
    the same state as the first. *)
Theorem reset_idempotent (uid : pystr) (d : list (pystr * pyval)) (w : World) :
  dict_get (str "uid") d = Some (PyStr uid) ->
  let r := reset (PyDict d) w in
  r.1 = Json (str "success") (str "Chat cleared.")
  /\ USER_MEMORY r.2 !! uid = None
  /\ (forall other, other <> uid -> USER_MEMORY r.2 !! other = USER_MEMORY w !! other)
  /\ USER_REQUESTS r.2 = USER_REQUESTS w
  /\ STATS r.2 = STATS w
  /\ posts r.2 = posts w
  /\ (USER_MEMORY w !! uid = None -> r = (Json (str "success") (str "Chat cleared."), w))
  /\ reset (PyDict d) r.2 = r.
Proof.
  intros Hd r. unfold r. rewrite !(reset_uid uid d) by exact Hd. cbn.
  repeat split.
  - apply lookup_delete_eq.
  - intros other Hne. by apply lookup_delete_ne.
  - intros Hnone. rewrite delete_id by exact Hnone.
    by rewrite set_USER_MEMORY_id.
  - unfold cleared, set_USER_MEMORY. cbn. do 2 f_equal.
    apply delete_id, lookup_delete_eq.
Qed.

Definition reset_body (uid : pystr) : pyval := PyDict [(str "uid", PyStr uid)].

Definition chatted : World :=
  mkWorld {[ str "u1" := [mkTurn user (str "hi"); mkTurn assistant (str "hello")];
             str "guest" := [mkTurn user (str "hey"); mkTurn assistant (str "yes?")] ]}
          {[ str "u1" := [50%float] ]} (mkStats 2 0) 2 0 [] [].

Lemma reset_idempotent_witness :
  (let r := reset (reset_body (str "u1")) chatted in
   r.1 = Json (str "success") (str "Chat cleared.")
   /\ USER_MEMORY r.2 !! str "u1" = None
   /\ (forall other, other <> str "u1" ->
                     USER_MEMORY r.2 !! other = USER_MEMORY chatted !! other)
   /\ USER_REQUESTS r.2 = USER_REQUESTS chatted
   /\ STATS r.2 = STATS chatted
   /\ posts r.2 = posts chatted
   /\ (USER_MEMORY chatted !! str "u1" = None ->
       r = (Json (str "success") (str "Chat cleared."), chatted))
   /\ reset (reset_body (str "u1")) r.2 = r)
  /\ reset (reset_body (str "u1")) initial
     = (Json (str "success") (str "Chat cleared."), initial).
Proof.
  split.
  - apply (reset_idempotent (str "u1") [(str "uid", PyStr (str "u1"))] chatted).
    reflexivity.
  - apply (proj1 (proj2 (proj2 (proj2 (proj2 (proj2 (proj2
             (reset_idempotent (str "u1") [(str "uid", PyStr (str "u1"))] initial
                eq_refl)))))))).
    reflexivity.
Defined.

(** Resetting an identity that has no history, here in the initial state. *)
Example reset_absent :
  reset (reset_body (str "u1")) initial
  = (Json (str "success") (str "Chat cleared."), initial).
Proof. reflexivity. Qed.

(** C10. When the JSON object of a reset request has no ["uid"] member,
    the handler uses the identity ["guest"]: it removes the history stored
    under that key, if any, leaves everything else alone, and returns the
    success body. *)
Theorem reset_defaults_to_guest (d : list (pystr * pyval)) (w : World) :
  dict_get (str "uid") d = None ->
  reset (PyDict d) w
  = (Json (str "success") (str "Chat cleared."),
     set_USER_MEMORY (delete (str "guest") (USER_MEMORY w)) w)
  /\ USER_MEMORY (reset (PyDict d) w).2 !! str "guest" = None
  /\ forall other, other <> str "guest" ->
       USER_MEMORY (reset (PyDict d) w).2 !! other = USER_MEMORY w !! other.
Proof.
  intros Hd. unfold reset. rewrite Hd. cbn.
  split; [reflexivity |]. split.
  - apply lookup_delete_eq.
  - intros other Hne. by apply lookup_delete_ne.
Qed.

Lemma reset_defaults_to_guest_witness :
  reset (PyDict []) chatted
  = (Json (str "success") (str "Chat cleared."),
     set_USER_MEMORY (delete (str "guest") (USER_MEMORY chatted)) chatted)
  /\ USER_MEMORY (reset (PyDict []) chatted).2 !! str "guest" = None
  /\ forall other, other <> str "guest" ->
       USER_MEMORY (reset (PyDict []) chatted).2 !! other
       = USER_MEMORY chatted !! other.
Proof.
  apply (reset_defaults_to_guest [] chatted). reflexivity.
Defined.

(** ** The recursion budget of the JSON decoder is never exhausted *)

Lemma prepend_Some (c : N) (o : option (pystr * pystr)) (t r : pystr) :
  prepend c o = Some (t, r) -> exists t', o = Some (t', r).
Proof. destruct o as [[t' r'] |]; cbn; intros [= <- <-]; eauto. Qed.

Lemma skip_ws_length (s : pystr) : (length (skip_ws s) <= length s)%nat.
Proof.
  induction s as [| c s IH]; cbn; [lia |].
  destruct (is_json_ws c); cbn; lia.
Qed.

(** A string literal ends with its closing quote: something is consumed. *)
Lemma scanstring_shorter (n : nat) :
  forall s t r,
    (length s <= n)%nat -> scanstring s = Some (t, r) -> (length r < length s)%nat.
Proof.
  induction n as [| n IH]; intros s t r Hn H; destruct s as [| c s];
    try discriminate H; cbn [length] in Hn; [lia |].
  cbn [scanstring] in H.
  repeat case_match; simplify_eq; cbn [length] in *; try lia;
    apply prepend_Some in H as [t' H]; apply IH in H; cbn [length] in *; lia.
Qed.

Lemma span_digits_length (s : pystr) : (length (span_digits s).2 <= length s)%nat.
Proof.
  induction s as [| c s IH]; cbn; [lia |].
  destruct (isdigit c); cbn; [| lia].
  destruct (span_digits s) as [ds r]. cbn in *. lia.
Qed.

Ltac span_facts :=
  repeat match goal with
         | H : span_digits ?s = (_, _) |- _ =>
           let F := fresh "F" in
           pose proof (span_digits_length s) as F;
           rewrite H in F; cbn [snd] in F; revert H
         end;
  intros.

Lemma literal_shorter (s : pystr) (v : pyval) (r : pystr) :
  literal s = Some (v, r) -> (length r < length s)%nat.
Proof.
  destruct s as [| c s]; [vm_compute; discriminate |].
  unfold literal. intros H.
  repeat case_match; simplify_eq; rewrite length_drop; cbn [length]; lia.
Qed.

Lemma match_number_shorter (s : pystr) (v : pyval) (r : pystr) :
  match_number s = Some (v, r) -> (length r < length s)%nat.
Proof.
  unfold match_number. intros H.
  repeat case_match; simplify_eq; span_facts; cbn [length] in *; lia.
Qed.

Ltac ws_facts :=
  repeat match goal with
         | H : skip_ws ?s = _ :: _ |- _ =>
           let F := fresh "F" in
           pose proof (skip_ws_length s) as F;
           rewrite H in F; cbn [length] in F; revert H
         | H : scanstring ?s = Some (_, _) |- _ =>
           let F := fresh "F" in
           pose proof (scanstring_shorter (length s) s _ _ (le_n _) H) as F; revert H
         | H : literal _ = Some (_, _) |- _ => apply literal_shorter in H
         | H : match_number _ = Some (_, _) |- _ => apply match_number_shorter in H
         end;
  intros.

Ltac ws_bounds :=
  repeat match goal with
         | |- context [skip_ws ?x] =>
           pose proof (skip_ws_length x); generalize dependent (skip_ws x); intros
         | H : context [skip_ws ?x] |- _ =>
           pose proof (skip_ws_length x); generalize dependent (skip_ws x); intros
         end.

(** Every term, every array body and every object body that is found has
    consumed at least one character. *)
Lemma scan_shorter (n : nat) :
  (forall s v r, scan_once n s = Found v r -> (length r < length s)%nat)
  /\ (forall acc s l r, parse_items n acc s = Found l r -> (length r < length s)%nat)
  /\ (forall d s l r, parse_members n d s = Found l r -> (length r < length s)%nat).
Proof.
  induction n as [| n (IH1 & IH2 & IH3)]; [repeat split; intros; discriminate |].
  repeat split.
  - intros s v r H. cbn [scan_once] in H.
    repeat case_match; simplify_eq; ws_facts;
      repeat match goal with
             | H : parse_members n _ _ = Found _ _ |- _ => apply IH3 in H
             | H : parse_items n _ _ = Found _ _ |- _ => apply IH2 in H
             end;
      cbn [length] in *; lia.
  - intros acc s l r H. cbn [parse_items] in H.
    repeat case_match; simplify_eq; ws_facts;
      repeat match goal with
             | H : scan_once n _ = Found _ _ |- _ => apply IH1 in H
             | H : parse_items n _ _ = Found _ _ |- _ => apply IH2 in H
             end;
      ws_bounds; cbn [length] in *; lia.
  - intros d s l r H. cbn [parse_members] in H.
    repeat case_match; simplify_eq; ws_facts;
      repeat match goal with
             | H : scan_once n _ = Found _ _ |- _ => apply IH1 in H
             | H : parse_members n _ _ = Found _ _ |- _ => apply IH3 in H
             end;
      ws_bounds; cbn [length] in *; lia.
Qed.

Ltac found_facts n :=
  repeat match goal with
         | H : scan_once n _ = Found _ _ |- _ => apply (proj1 (scan_shorter n)) in H
         end.

(** With a budget of more than twice the length of the input, scanning
    never ends for lack of budget. *)
Lemma scan_budget (n : nat) :
  (forall s, (2 * length s < n)%nat -> scan_once n s <> Starved)
  /\ (forall acc s, (2 * length s + 1 < n)%nat -> parse_items n acc s <> Starved)
  /\ (forall d s, (2 * length s + 1 < n)%nat -> parse_members n d s <> Starved).
Proof.
  induction n as [| n (IH1 & IH2 & IH3)]; [repeat split; intros; lia |].
  repeat split.
  - intros s Hn. cbn [scan_once].
    repeat case_match; try done; simplify_eq; exfalso;
      match goal with
      | H : parse_members n _ _ = Starved |- _ => revert H; apply IH3
      | H : parse_items n _ _ = Starved |- _ => revert H; apply IH2
      end;
      ws_facts; cbn [length] in *; lia.
  - intros acc s Hn. cbn [parse_items].
    repeat case_match; try done; simplify_eq;
      first [ apply IH2
            | exfalso;
              match goal with
              | H : scan_once n _ = Starved |- _ => revert H; apply IH1
              end ];
      found_facts n; ws_facts; ws_bounds; cbn [length] in *; lia.
  - intros d s Hn. cbn [parse_members].
    repeat case_match; try done; simplify_eq;
      first [ apply IH3
            | exfalso;
              match goal with
              | H : scan_once n _ = Starved |- _ => revert H; apply IH1
              end ];
      found_facts n; ws_facts; ws_bounds; cbn [length] in *; lia.
Qed.

(** [json_loads] never fails for lack of budget: [None] is a syntax error. *)
Lemma json_loads_budget (s : pystr) :
  scan_once (2 * length s + 1) (skip_ws s) <> Starved.
Proof.
  apply (proj1 (scan_budget _)). pose proof (skip_ws_length s). lia.
Qed.

(** ** Two runs of the whole handler *)

Definition hi_request : ChatRequest.t :=
  ChatRequest.mk (str " hi ") (Some (str "u1")) (Some (str "fast")) None None.

(** A first message on a fresh server whose upstream streams [A], [B]. *)
Example serve_chat_hi :
  let r := serve_chat answers_A_B hi_request initial in
  r.1 = Stream [str "A"; str "B"]
  /\ requests (STATS r.2) = 1%Z
  /\ blocked (STATS r.2) = 0%Z
  /\ history r.2 (str "u1") = [mkTurn user (str "hi"); mkTurn assistant (str "AB")]
  /\ length (requests_window r.2 (str "u1")) = 1%nat
  /\ length (posts r.2) = 1%nat.
Proof. vm_compute. repeat split. Qed.

(** The same message when the window of the identity is full. *)
Example serve_chat_limited :
  let r := serve_chat answers_A_B hi_request busy in
  r.1 = Body (str "limited") (str "Chill for a sec " ++ [0x23F3%N])
  /\ requests (STATS r.2) = 31%Z
  /\ blocked (STATS r.2) = 1%Z
  /\ history r.2 (str "u1") = []
  /\ length (requests_window r.2 (str "u1")) = 30%nat
  /\ posts r.2 = [].
Proof. vm_compute. repeat split. Qed.

(** A reset whose body is not a JSON object, or whose [uid] cannot be a
    dictionary key, ends in an exception. *)
Example reset_not_an_object :
  (reset (PyList []) chatted).1 = Unhandled
  /\ (reset (PyDict [(str "uid", PyList [])]) chatted).1 = Unhandled.
Proof. split; reflexivity. Qed.

(** * Further properties of the handlers *)

(** ** What a stream can do to the world *)

(** The world after a stream that ended in the [except] branch, and after
    one that reached [save_memory]. *)
Definition after_failure (call : PostCall) (e : pystr) (w : World) : World :=
  mkWorld (USER_MEMORY w) (USER_REQUESTS w) (STATS w) (clock_reads w) (uuid_draws w)
          (posts w ++ [call]) (error_log w ++ [e]).

Definition after_commit (call : PostCall) (uid user_msg ai_msg : pystr) (w : World) :
    World :=
  mkWorld (<[uid := lastn 40 (history w uid
                                ++ [mkTurn user user_msg; mkTurn assistant ai_msg])]>
             (USER_MEMORY w))
          (USER_REQUESTS w) (STATS w) (clock_reads w) (uuid_draws w)
          (posts w ++ [call]) (error_log w).

(** Every run of the generator is of one of these two kinds. *)
Lemma stream_response_cases (E : Env) uid messages model temperature max_tokens w :
  let call := upstream_call E messages model temperature max_tokens in
  let s := stream_response E uid messages model temperature max_tokens w in
  (exists out e, s = (out ++ [error_fragment e], after_failure call e w))
  \/ (exists out full m,
        index (-1) messages = Some m
        /\ s = (out, after_commit call uid (content m) full w)).
Proof.
  intros call s. unfold s, stream_response, bind, post.
  fold (upstream_call E messages model temperature max_tokens). fold call.
  destruct (requests_post E _ _) as [e | r]; [left; by exists [], e |].
  destruct (raise_for_status r) as [e |]; [left; by exists [], e |].
  destruct (relay E (lines r) (broken r) []) as [[out full] [| e]];
    [| left; by exists out, e].
  destruct (index (-1) messages) as [m |] eqn:Hm.
  - right. exists out, full, m. split; [done |].
    unfold bind. by rewrite save_memory_eq.
  - left. by exists out, (str "list index out of range").
Qed.

(** The text accumulated by the loop is what it started with followed by
    the fragments it yielded, however the loop ends. *)
Lemma relay_accumulates (E : Env) (chunks : list (list byte)) (broken : option pystr) :
  forall full out full' flow,
    relay E chunks broken full = (out, full', flow) -> full' = full ++ concat out.
Proof.
  induction chunks as [| chunk rest IH]; intros full out full' flow.
  - cbn. destruct broken; intros [= <- <- <-]; by rewrite app_nil_r.
  - rewrite relay_cons. destruct (chunk_step E chunk) as [| c | | e].
    + apply IH.
    + destruct (relay E rest broken (full ++ c)) as [[out1 full1] flow1] eqn:Hr.
      intros [= <- <- <-]. apply IH in Hr. cbn. by rewrite Hr, app_assoc.
    + intros [= <- <- <-]. by rewrite app_nil_r.
    + intros [= <- <- <-]. by rewrite app_nil_r.
Qed.

(** X1. When a stream ends without an exception, the assistant turn that
    is committed holds exactly the concatenation of the fragments the
    client received, in order, and the user turn holds the content of the
    last message: nothing is committed that was not sent, and nothing sent
    is left out. *)
Theorem committed_text_is_what_was_streamed (E : Env) (uid : pystr)
    (messages : list Turn) (model : option pystr) (temperature : option float)
    (max_tokens : option Z) (w : World) (r : Response) (m : Turn)
    (out : list pystr) (full : pystr) :
  requests_post E (length (posts w))
    (upstream_call E messages model temperature max_tokens) = Answered r ->
  raise_for_status r = None ->
  relay E (lines r) (broken r) [] = (out, full, Finished) ->
  index (-1) messages = Some m ->
  let s := stream_response E uid messages model temperature max_tokens w in
  s.1 = out
  /\ history s.2 uid
     = lastn 40 (history w uid
                   ++ [mkTurn user (content m); mkTurn assistant (concat s.1)]).
Proof.
  intros Hr Hs Hl Hm s. unfold s.
  rewrite (stream_response_finished E uid messages model temperature max_tokens w
             r out full m Hr Hs Hl Hm).
  split; [reflexivity |].
  apply relay_accumulates in Hl. cbn in Hl. subst full.
  unfold history at 1. cbn [USER_MEMORY fst snd]. by rewrite lookup_insert_eq.
Qed.

Lemma committed_text_is_what_was_streamed_witness :
  let s := stream_response answers_A_B (str "u1") hi_messages (Some (str "fast"))
             None None initial in
  s.1 = [str "A"; str "B"]
  /\ history s.2 (str "u1")
     = lastn 40 (history initial (str "u1")
                   ++ [mkTurn user (content (mkTurn user (str "hi")));
                       mkTurn assistant (concat s.1)]).
Proof.
  apply (committed_text_is_what_was_streamed answers_A_B (str "u1") hi_messages
           (Some (str "fast")) None None initial
           (mkResponse 200 (str "OK") GROQ_URL
              [content_frame "A"; content_frame "B"; done_frame] None)
           (mkTurn user (str "hi")) [str "A"; str "B"] (str "AB")).
  - reflexivity.
  - reflexivity.
  - apply relay_A_B_done.
  - reflexivity.
Defined.

(** ** Lines of the body *)

(** A chunk whose payload is the end marker. *)
Definition end_marker (chunk : list byte) : Prop :=
  payload_of chunk = Some (str "[DONE]").

(** A chunk the loop passes over without looking for JSON: an empty one, or
    a line that does not start with ["data: "]. *)
Definition not_a_data_line (chunk : list byte) : Prop :=
  chunk = [] \/ exists line, decode chunk = Some line
                             /\ startswith (str "data: ") line = false.

Lemma end_marker_step (E : Env) (chunk : list byte) :
  end_marker chunk -> chunk_step E chunk = Stop.
Proof.
  intros Hp. unfold chunk_step.
  destruct (payload_of_nonempty _ _ Hp) as (line & Hne & Hl).
  destruct chunk; [done |]. by rewrite Hl, Hp.
Qed.

Lemma not_a_data_line_step (E : Env) (chunk : list byte) :
  not_a_data_line chunk -> chunk_step E chunk = Skip.
Proof.
  intros [-> | (line & Hl & Hs)]; [done |].
  unfold chunk_step, payload_of. destruct chunk; [done |].
  rewrite Hl. cbn [mbind option_bind]. by rewrite Hs.
Qed.

Lemma undecodable_step (E : Env) (chunk : list byte) :
  chunk <> [] -> decode chunk = None -> chunk_step E chunk = Crash (decode_error E chunk).
Proof. intros Hne Hd. unfold chunk_step. destruct chunk; [done |]. by rewrite Hd. Qed.

(** X2. The end marker ends the reading: whatever the body holds after a
    [data: [DONE]] line (further frames, or a connection that breaks) has
    no effect on the fragments, on the accumulated text or on how the loop
    ends. *)
Theorem nothing_is_read_after_done (E : Env) (before after : list (list byte))
    (marker : list byte) (broken : option pystr) (full : pystr) :
  end_marker marker ->
  relay E (before ++ marker :: after) broken full
  = relay E (before ++ [marker]) None full.
Proof.
  intros Hm. revert full. induction before as [| c before IH]; intros full.
  - cbn [app]. by rewrite !relay_cons, (end_marker_step E marker Hm).
  - rewrite <- !app_comm_cons, !relay_cons.
    destruct (chunk_step E c); try done. by rewrite IH.
Qed.

Lemma nothing_is_read_after_done_witness :
  relay offline ([content_frame "A"] ++ done_frame :: [content_frame "B"])
    (Some (str "Read timed out.")) []
  = relay offline ([content_frame "A"] ++ [done_frame]) None [].
Proof.
  apply (nothing_is_read_after_done offline [content_frame "A"] [content_frame "B"]
           done_frame (Some (str "Read timed out.")) []).
  reflexivity.
Defined.

(** X3. Empty chunks and lines that do not start with ["data: "] (the
    blank separators, comments and [event:] lines of an event stream, and
    also a [data:] line without the space) are passed over: with or without
    such a chunk, anywhere in the body, the stream is the same. *)
Theorem other_lines_are_ignored (E : Env) (before after : list (list byte))
    (chunk : list byte) (broken : option pystr) (full : pystr) :
  not_a_data_line chunk ->
  relay E (before ++ chunk :: after) broken full = relay E (before ++ after) broken full.
Proof. intros Hc. apply relay_skip. by apply not_a_data_line_step. Qed.

Lemma other_lines_are_ignored_witness :
  relay offline ([content_frame "A"] ++ bytes "event: ping" :: [content_frame "B"])
    None []
  = relay offline ([content_frame "A"] ++ [content_frame "B"]) None []
  /\ relay offline ([content_frame "A"] ++ bytes "data:[DONE]" :: [content_frame "B"])
       None []
     = relay offline ([content_frame "A"] ++ [content_frame "B"]) None [].
Proof.
  split.
  - apply (other_lines_are_ignored offline [content_frame "A"] [content_frame "B"]
             (bytes "event: ping") None []).
    right. eexists. split; vm_compute; reflexivity.
  - apply (other_lines_are_ignored offline [content_frame "A"] [content_frame "B"]
             (bytes "data:[DONE]") None []).
    right. eexists. split; vm_compute; reflexivity.
Defined.

(** X4. A chunk that is not valid UTF-8 is not skipped like a malformed
    frame: decoding raises outside the inner [try], so the stream stops
    there.  The client gets the fragments of the frames before it and one
    error fragment, the rest of the body is not read, the error is logged
    and nothing is committed. *)
Theorem undecodable_chunk_aborts (E : Env) (uid : pystr) (messages : list Turn)
    (model : option pystr) (temperature : option float) (max_tokens : option Z)
    (w : World) (r : Response) (before after : list (list byte))
    (chunk : list byte) (cs : list pystr) :
  requests_post E (length (posts w))
    (upstream_call E messages model temperature max_tokens) = Answered r ->
  raise_for_status r = None ->
  lines r = before ++ chunk :: after ->
  Forall2 valid_frame before cs ->
  chunk <> [] ->
  decode chunk = None ->
  let s := stream_response E uid messages model temperature max_tokens w in
  s.1 = cs ++ [error_prefix ++ decode_error E chunk]
  /\ USER_MEMORY s.2 = USER_MEMORY w
  /\ error_log s.2 = error_log w ++ [decode_error E chunk].
Proof.
  intros Hr Hs Hl Hv Hne Hd s.
  assert (Hrelay : forall full,
            relay E (before ++ chunk :: after) (broken r) full
            = (cs, full ++ concat cs, Raised (decode_error E chunk))).
  { clear Hl. induction Hv as [| c x before cs Hc _ IH]; intros full.
    - cbn [app]. rewrite relay_cons, (undecodable_step E chunk Hne Hd).
      cbn. by rewrite app_nil_r.
    - rewrite <- app_comm_cons, relay_cons, (valid_frame_step E c x Hc), IH.
      cbn. by rewrite app_assoc. }
  unfold s.
  rewrite (stream_response_failed E uid messages model temperature max_tokens w
             cs (decode_error E chunk)); [done |].
  rewrite Hr. cbn. by rewrite Hs, Hl, Hrelay.
Qed.

(** An upstream whose body holds a valid frame, then the single byte 0xFF,
    then another valid frame. *)
Definition broken_encoding : Response :=
  mkResponse 200 (str "OK") GROQ_URL
    ([content_frame "A"] ++ [xff] :: [content_frame "B"]) None.

Definition mangled : Env :=
  mkEnv (str "secret") (fun _ => 100%float) (fun _ => str "generated-id")
        (fun _ _ => Answered broken_encoding)
        (fun _ => str "invalid start byte").

Lemma undecodable_chunk_aborts_witness :
  let s := stream_response mangled (str "u1") hi_messages (Some (str "fast"))
             None None initial in
  s.1 = [str "A"] ++ [error_prefix ++ decode_error mangled [xff]]
  /\ USER_MEMORY s.2 = USER_MEMORY initial
  /\ error_log s.2 = error_log initial ++ [decode_error mangled [xff]].
Proof.
  apply (undecodable_chunk_aborts mangled (str "u1") hi_messages (Some (str "fast"))
           None None initial broken_encoding [content_frame "A"] [content_frame "B"]
           [xff] [str "A"]).
  - reflexivity.
  - reflexivity.
  - reflexivity.
  - repeat constructor. exact content_frame_A.
  - discriminate.
  - reflexivity.
Defined.

(** ** Which frames yield a fragment *)

Lemma index_0 {A} (l : list A) : index 0 l = head l.
Proof.
  unfold index. destruct l as [| x l]; [reflexivity |].
  cbn [length]. rewrite Nat2Z.inj_succ.
  change (0 <? 0)%Z with false. cbv iota. change (0 <=? 0)%Z with true.
  destruct (Z.ltb_spec 0 (Z.succ (Z.of_nat (length l)))); [reflexivity | lia].
Qed.

(** X5. A payload yields a fragment exactly when it is a JSON object whose
    ["choices"] is an array, whose first element is an object, whose
    ["delta"] is an object, whose ["content"] is a string; the fragment is
    that string (possibly empty).  Every other payload (invalid JSON, an
    empty array of choices, a delta without content, a [null] or numeric
    content, a string or an array where an object is expected) yields
    nothing and is passed over. *)
Theorem frame_content_iff (data c : pystr) :
  frame_content data = Some c <->
  exists d first rest delta,
    json_loads data = Some (PyDict d)
    /\ dict_get (str "choices") d = Some (PyList (PyDict first :: rest))
    /\ dict_get (str "delta") first = Some (PyDict delta)
    /\ dict_get (str "content") delta = Some (PyStr c).
Proof.
  unfold frame_content. split.
  - destruct (json_loads data) as [[| | | | | | d] |]; try discriminate.
    cbn [mbind option_bind getitem_str].
    destruct (dict_get (str "choices") d) as [choices |] eqn:Hch; [| discriminate].
    cbn [mbind option_bind].
    destruct choices as [| | | | s | l |]; try discriminate.
    + cbn [getitem_int]. destruct (index 0 s); discriminate.
    + cbn [getitem_int]. rewrite index_0.
      destruct l as [| first rest]; [discriminate |].
      cbn [head mbind option_bind].
      destruct first as [| | | | | | first]; try discriminate.
      cbn [getitem_str].
      destruct (dict_get (str "delta") first) as [delta |] eqn:Hd; [| discriminate].
      cbn [mbind option_bind].
      destruct delta as [| | | | s | l |delta]; try discriminate.
      * cbn [contains_str mbind option_bind getitem_str].
        destruct (str_contains _ _); discriminate.
      * cbn [contains_str mbind option_bind getitem_str].
        destruct (existsb _ _); discriminate.
      * cbn [contains_str mbind option_bind getitem_str].
        destruct (dict_get (str "content") delta) as [content |] eqn:Hc.
        -- rewrite bool_decide_eq_true_2 by eauto.
           cbn [mbind option_bind].
           destruct content; try discriminate.
           intros [= <-]. exists d, first, rest, delta. eauto.
        -- rewrite bool_decide_eq_false_2 by (intros [? ?]; discriminate).
           discriminate.
  - intros (d & first & rest & delta & -> & Hc & Hd & Hx).
    cbn [mbind option_bind getitem_str]. rewrite Hc.
    cbn [mbind option_bind getitem_int]. rewrite index_0.
    cbn [head mbind option_bind getitem_str]. rewrite Hd.
    cbn [mbind option_bind contains_str getitem_str]. rewrite Hx.
    by rewrite bool_decide_eq_true_2 by eauto.
Qed.

(** The first frame of a real stream carries the role only. *)
Definition role_payload : pystr :=
  str "{" ++ [34%N] ++ str "choices" ++ [34%N] ++ str ":[{" ++ [34%N] ++ str "delta"
    ++ [34%N] ++ str ":{" ++ [34%N] ++ str "role" ++ [34%N] ++ str ":" ++ [34%N]
    ++ str "assistant" ++ [34%N] ++ str "}}]}".

Lemma frame_content_iff_witness :
  (forall c, frame_content role_payload <> Some c)
  /\ frame_content
       (str "{" ++ [34%N] ++ str "choices" ++ [34%N] ++ str ":[{" ++ [34%N]
          ++ str "delta" ++ [34%N] ++ str ":{" ++ [34%N] ++ str "content" ++ [34%N]
          ++ str ":" ++ [34%N] ++ [34%N] ++ str "}}]}")
     = Some [].
Proof.
  split.
  - intros c H. apply (proj1 (frame_content_iff role_payload c)) in H.
    destruct H as (d & first & rest & delta & Hj & Hc & Hd & Hx).
    vm_compute in Hj. injection Hj as <-.
    vm_compute in Hc. injection Hc as <- <-.
    vm_compute in Hd. injection Hd as <-.
    vm_compute in Hx. discriminate Hx.
  - apply (proj2 (frame_content_iff _ [])).
    eexists _, _, _, _. split; [vm_compute; reflexivity |].
    split; [vm_compute; reflexivity |].
    split; vm_compute; reflexivity.
Defined.

(** ** More on the rate limiter *)

Lemma rate_limit_below (E : Env) (uid : pystr) (w : World) :
  (Z.of_nat (length (requests_window w uid)) < REQUESTS_PER_MINUTE)%Z ->
  rate_limit E uid w =
  (true,
   accepted uid (kept_from E (clock_reads w) (requests_window w uid))
     (time_time E (clock_reads w + length (requests_window w uid)))
     (clock_reads w + length (requests_window w uid)) w).
Proof.
  intros Hlt. rewrite rate_limit_eq.
  pose proof (kept_from_length E (clock_reads w) (requests_window w uid)).
  destruct (Z.leb_spec REQUESTS_PER_MINUTE
              (Z.of_nat (length (kept_from E (clock_reads w) (requests_window w uid)))));
    [lia | reflexivity].
Qed.

Lemma kept_from_all_stale (E : Env) (ts : list float) :
  forall n,
    (forall i t, ts !! i = Some t -> fresh (time_time E (n + i)) t = false) ->
    kept_from E n ts = [].
Proof.
  induction ts as [| t r IH]; intros n Hf; [done |].
  cbn. pose proof (Hf 0%nat t eq_refl) as H0. rewrite Nat.add_0_r in H0.
  rewrite H0. apply IH.
  intros i t' Hi. replace (S n + i)%nat with (n + S i)%nat by lia.
  by apply Hf.
Qed.

(** X6. An identity with fewer than [REQUESTS_PER_MINUTE] stored
    timestamps is never rejected, whatever the clock says: the call returns
    [True], the window becomes the surviving timestamps followed by the
    current time, and neither counter changes. *)
Theorem rate_limit_admits_below_limit (E : Env) (uid : pystr) (w : World) :
  (Z.of_nat (length (requests_window w uid)) < REQUESTS_PER_MINUTE)%Z ->
  let r := rate_limit E uid w in
  r.1 = true
  /\ requests_window r.2 uid
     = kept_from E (clock_reads w) (requests_window w uid)
         ++ [time_time E (clock_reads w + length (requests_window w uid))]
  /\ STATS r.2 = STATS w.
Proof.
  intros Hlt r. unfold r. rewrite rate_limit_below by exact Hlt.
  repeat split. unfold requests_window at 1. cbn. by rewrite lookup_insert_eq.
Qed.

(** A world in which [u1] made three requests, at 10, 30 and 50 seconds. *)
Definition three_requests : World :=
  mkWorld ∅ {[ str "u1" := [10%float; 30%float; 50%float] ]} (mkStats 3 0) 3 0 [] [].

Lemma rate_limit_admits_below_limit_witness :
  let r := rate_limit offline (str "u1") three_requests in
  r.1 = true
  /\ requests_window r.2 (str "u1")
     = kept_from offline (clock_reads three_requests)
         (requests_window three_requests (str "u1"))
         ++ [time_time offline
               (clock_reads three_requests
                + length (requests_window three_requests (str "u1")))]
  /\ STATS r.2 = STATS three_requests.
Proof.
  apply (rate_limit_admits_below_limit offline (str "u1") three_requests).
  reflexivity.
Defined.

(** At 100 seconds the first two of the three timestamps have expired. *)
Example rate_limit_prunes_expired :
  requests_window (rate_limit offline (str "u1") three_requests).2 (str "u1")
  = [50%float; 100%float].
Proof. reflexivity. Qed.

(** X7. Once every stored timestamp has expired (none satisfies
    [now - t < 60] at its reading), the identity is admitted again, however
    full its window was, and the window restarts with the current time as
    its only entry. *)
Theorem rate_limit_recovers (E : Env) (uid : pystr) (w : World) :
  (forall i t, requests_window w uid !! i = Some t ->
               (time_time E (clock_reads w + i) - t <? 60)%float = false) ->
  let r := rate_limit E uid w in
  r.1 = true
  /\ requests_window r.2 uid
     = [time_time E (clock_reads w + length (requests_window w uid))]
  /\ STATS r.2 = STATS w.
Proof.
  intros Hstale r. unfold r.
  rewrite rate_limit_eq, kept_from_all_stale by exact Hstale.
  change (REQUESTS_PER_MINUTE <=? Z.of_nat (length []))%Z with false. cbv iota.
  repeat split. unfold requests_window at 1. cbn. by rewrite lookup_insert_eq.
Qed.

(** The clock of [offline], two minutes later. *)
Definition later : Env :=
  mkEnv (str "secret") (fun _ => 200%float) (fun _ => str "generated-id")
        (fun _ _ => Refused (str "connection refused"))
        (fun _ => str "invalid start byte").

Lemma rate_limit_recovers_witness :
  let r := rate_limit later (str "u1") busy in
  r.1 = true
  /\ requests_window r.2 (str "u1")
     = [time_time later (clock_reads busy + length (requests_window busy (str "u1")))]
  /\ STATS r.2 = STATS busy.
Proof.
  apply (rate_limit_recovers later (str "u1") busy).
  intros i t Hi.
  assert (Hw : requests_window busy (str "u1") = replicate 30 50%float) by reflexivity.
  rewrite Hw in Hi. apply lookup_replicate in Hi as [-> _]. reflexivity.
Defined.

(** X8. Rate limiting one identity concerns that identity only: the
    windows of all other identities, the whole conversation memory, the
    [requests] counter, the upstream calls and the error log are left as
    they were, and [blocked] never decreases. *)
Theorem rate_limit_is_per_identity (E : Env) (uid : pystr) (w : World) :
  let r := rate_limit E uid w in
  (forall other, other <> uid -> USER_REQUESTS r.2 !! other = USER_REQUESTS w !! other)
  /\ USER_MEMORY r.2 = USER_MEMORY w
  /\ requests (STATS r.2) = requests (STATS w)
  /\ (blocked (STATS w) <= blocked (STATS r.2))%Z
  /\ posts r.2 = posts w
  /\ error_log r.2 = error_log w.
Proof.
  intros r. unfold r. rewrite rate_limit_eq.
  destruct (REQUESTS_PER_MINUTE <=? _)%Z; cbn;
    (split; [intros other Hne; by rewrite lookup_insert_ne |]);
    repeat split; lia.
Qed.

(** [n] calls of the rate limiter for one identity, one after the other. *)
Fixpoint rate_limit_times (E : Env) (uid : pystr) (n : nat) : M (list bool) :=
  match n with
  | O => ret []
  | S k =>
    ok <- rate_limit E uid ;;
    rest <- rate_limit_times E uid k ;;
    ret (ok :: rest)
  end.

(** X9. As long as the stored timestamps and the new calls together do not
    exceed [REQUESTS_PER_MINUTE], every call is admitted, however fast the
    calls follow each other: in particular the first [REQUESTS_PER_MINUTE]
    calls of an identity without a window all return [True]. *)
Theorem rate_limit_admits_first_calls (E : Env) (uid : pystr) (n : nat) :
  forall w,
    (Z.of_nat (length (requests_window w uid)) + Z.of_nat n <= REQUESTS_PER_MINUTE)%Z ->
    let r := rate_limit_times E uid n w in
    r.1 = replicate n true
    /\ (length (requests_window r.2 uid) <= length (requests_window w uid) + n)%nat
    /\ blocked (STATS r.2) = blocked (STATS w).
Proof.
  induction n as [| n IH]; intros w Hn; [cbn; repeat split; lia |].
  cbn [rate_limit_times]. unfold bind.
  rewrite rate_limit_below by lia.
  set (w1 := accepted _ _ _ _ w).
  assert (Hlen : (length (requests_window w1 uid) <= length (requests_window w uid) + 1)%nat).
  { unfold requests_window at 1, w1. cbn. rewrite lookup_insert_eq. cbn.
    rewrite length_app. cbn.
    pose proof (kept_from_length E (clock_reads w) (requests_window w uid)). lia. }
  specialize (IH w1). cbv zeta in IH.
  destruct (rate_limit_times E uid n w1) as [oks w2].
  destruct IH as (Hoks & Hw & Hb); [lia |]. cbn in *.
  rewrite Hoks. repeat split; [lia | exact Hb].
Qed.

Lemma rate_limit_admits_first_calls_witness :
  let r := rate_limit_times offline (str "u1") 30 initial in
  r.1 = replicate 30 true
  /\ (length (requests_window r.2 (str "u1"))
      <= length (requests_window initial (str "u1")) + 30)%nat
  /\ blocked (STATS r.2) = blocked (STATS initial).
Proof.
  apply (rate_limit_admits_first_calls offline (str "u1") 30 initial).
  vm_compute. discriminate.
Defined.

(** The call after those thirty, within the same minute, is rejected. *)
Example thirty_first_call_is_rejected :
  (rate_limit_times offline (str "u1") 31 initial).1 = replicate 30 true ++ [false].
Proof. vm_compute. reflexivity. Qed.

(** ** What the handler does before the stream is read *)

Lemma rate_limit_frame (E : Env) (uid : pystr) (w : World) :
  let r := rate_limit E uid w in
  USER_MEMORY r.2 = USER_MEMORY w
  /\ requests (STATS r.2) = requests (STATS w)
  /\ posts r.2 = posts w
  /\ error_log r.2 = error_log w
  /\ (if r.1 then blocked (STATS r.2) = blocked (STATS w)
      else blocked (STATS r.2) = (blocked (STATS w) + 1)%Z).
Proof.
  intros r. unfold r. rewrite rate_limit_eq.
  by destruct (REQUESTS_PER_MINUTE <=? _)%Z.
Qed.

(** The replies with status ["limited"]. *)
Definition is_limited (r : Reply) : bool :=
  match r with
  | Json status _ => bool_decide (status = str "limited")
  | _ => false
  end.

(** X10. The handler [chat] itself never calls the upstream and never
    touches the conversation memory or the error log, whatever the request:
    the call and the commit belong to the generator and happen only when
    the streaming response is read.  It always adds one to [requests], and
    one to [blocked] exactly when it answers ["limited"]. *)
Theorem chat_defers_the_stream (E : Env) (request : ChatRequest.t) (w : World) :
  let r := chat E request w in
  posts r.2 = posts w
  /\ USER_MEMORY r.2 = USER_MEMORY w
  /\ error_log r.2 = error_log w
  /\ requests (STATS r.2) = (requests (STATS w) + 1)%Z
  /\ blocked (STATS r.2)
     = (if is_limited r.1 then blocked (STATS w) + 1 else blocked (STATS w))%Z.
Proof.
  intros r. unfold r. rewrite chat_eq.
  pose proof (get_user_id_frame E (ChatRequest.uid request) w) as Hf.
  destruct (get_user_id E (ChatRequest.uid request) w) as [uid w1].
  cbn in Hf. destruct Hf as (Hm & Hr & Hs & Hp & _ & Hl). cbv zeta.
  destruct (strip (ChatRequest.message request)) as [| c msg].
  { cbn. by rewrite Hm, Hs, Hp, Hl. }
  destruct (MAX_MESSAGE_LENGTH <? _)%Z.
  { cbn. by rewrite Hm, Hs, Hp, Hl. }
  set (w2 := set_STATS _ w1).
  pose proof (rate_limit_frame E uid w2) as Hrl.
  destruct (rate_limit E uid w2) as [[|] w3]; cbn in Hrl;
    destruct Hrl as (Hm3 & Hr3 & Hp3 & Hl3 & Hb3); cbn [fst snd];
    rewrite Hm3, Hr3, Hp3, Hl3, Hb3; cbn; by rewrite Hm, Hs, Hp, Hl.
Qed.

(** ** Invariants of the server *)

Lemma length_flat_exchange (ps : list (pystr * pystr)) :
  length (flat_map exchange ps) = (2 * length ps)%nat.
Proof. induction ps; cbn in *; lia. Qed.

Lemma drop_flat_exchange (k : nat) :
  forall ps, drop (2 * k) (flat_map exchange ps) = flat_map exchange (drop k ps).
Proof.
  induction k as [| k IH]; intros ps; [done |].
  destruct ps as [| p ps]; [done |].
  replace (2 * S k)%nat with (S (S (2 * k))) by lia. cbn. apply IH.
Qed.

(** A history made of whole exchanges, at most [MAX_MEMORY_MESSAGES]. *)
Definition well_paired (h : list Turn) : Prop :=
  exists ps, h = flat_map exchange ps /\ (length ps <= 20)%nat.

Lemma well_paired_commit (h : list Turn) (user_msg ai_msg : pystr) :
  well_paired h ->
  well_paired (lastn 40 (h ++ [mkTurn user user_msg; mkTurn assistant ai_msg])).
Proof.
  intros (ps & -> & Hlen).
  exists (lastn 20 (ps ++ [(user_msg, ai_msg)])). split.
  - change [mkTurn user user_msg; mkTurn assistant ai_msg]
      with (flat_map exchange [(user_msg, ai_msg)]).
    rewrite <- flat_map_app. unfold lastn.
    rewrite length_flat_exchange, <- drop_flat_exchange. f_equal. lia.
  - rewrite length_lastn. lia.
Qed.

Definition memory_paired (w : World) : Prop :=
  forall uid h, USER_MEMORY w !! uid = Some h -> well_paired h.

Lemma history_paired (w : World) (uid : pystr) :
  memory_paired w -> well_paired (history w uid).
Proof.
  intros Hw. unfold history. destruct (USER_MEMORY w !! uid) as [h |] eqn:Hu; cbn.
  - by apply (Hw uid).
  - exists []. split; [reflexivity | cbn; lia].
Qed.

Lemma handle_paired (E : Env) (c : Call) (w : World) :
  memory_paired w -> memory_paired (handle E c w).2.
Proof.
  intros Hw. destruct c as [request | data |]; unfold handle, bind.
  - unfold serve_chat, bind.
    assert (Hc : USER_MEMORY (chat E request w).2 = USER_MEMORY w).
    { rewrite chat_eq.
      pose proof (get_user_id_frame E (ChatRequest.uid request) w) as Hf.
      destruct (get_user_id E (ChatRequest.uid request) w) as [uid w1].
      cbn in Hf. destruct Hf as (Hm & _). cbv zeta.
      destruct (strip (ChatRequest.message request)); [done |].
      destruct (MAX_MESSAGE_LENGTH <? _)%Z; [done |].
      set (w2 := set_STATS _ w1).
      pose proof (rate_limit_frame E uid w2) as (Hm3 & _).
      destruct (rate_limit E uid w2) as [[|] w3]; cbn in *; congruence. }
    destruct (chat E request w) as [[s r | uid ms md t mt |] w1]; cbn in Hc;
      try (intros u h; cbn; rewrite Hc; by apply Hw).
    assert (Hw1 : memory_paired w1) by (intros u h; rewrite Hc; by apply Hw).
    destruct (stream_response_cases E uid ms md t mt w1)
      as [(out & e & Hs) | (out & full & m & _ & Hs)]; rewrite Hs; cbn.
    + exact Hw1.
    + intros u h. cbn. rewrite lookup_insert. case_decide.
      * intros [= <-]. apply well_paired_commit. by apply history_paired.
      * by apply Hw1.
  - unfold reset.
    destruct data as [| | | | | |d]; try exact Hw.
    destruct (default _ _) as [| | | | u | |]; try exact Hw.
    intros u' h. cbn. rewrite lookup_delete. case_decide; [done |]. by apply Hw.
  - exact Hw.
Qed.

(** X11. In every state the server reaches from its initial one, the
    history of every identity consists of whole exchanges, a user turn
    followed by an assistant turn, at most [MAX_MEMORY_MESSAGES] of them:
    truncation never splits a pair, and a history never has more than
    [2 * MAX_MEMORY_MESSAGES] turns. *)
Theorem histories_are_whole_exchanges (E : Env) (calls : list Call) (uid : pystr) :
  exists ps,
    history (run E calls initial).2 uid = flat_map exchange ps
    /\ (Z.of_nat (length ps) <= MAX_MEMORY_MESSAGES)%Z
    /\ (Z.of_nat (length (history (run E calls initial).2 uid))
        <= 2 * MAX_MEMORY_MESSAGES)%Z.
Proof.
  assert (Hrun : forall w, memory_paired w -> memory_paired (run E calls w).2).
  { induction calls as [| c r IH]; intros w Hw; [exact Hw |].
    cbn [run]. unfold bind.
    pose proof (handle_paired E c w Hw) as Hh.
    destruct (handle E c w) as [[] w1]. by apply IH. }
  assert (Hi : memory_paired initial).
  { intros u h Hl. cbn in Hl. by rewrite lookup_empty in Hl. }
  destruct (history_paired _ uid (Hrun initial Hi)) as (ps & Hps & Hlen).
  exists ps. rewrite Hps, length_flat_exchange.
  unfold MAX_MEMORY_MESSAGES. repeat split; lia.
Qed.

Lemma chat_counts (E : Env) (request : ChatRequest.t) (w : World) :
  let r := chat E request w in
  posts r.2 = posts w
  /\ requests (STATS r.2) = (requests (STATS w) + 1)%Z
  /\ match r.1 with
     | Streaming _ _ _ _ _ => blocked (STATS r.2) = blocked (STATS w)
     | _ => (blocked (STATS w) <= blocked (STATS r.2) <= blocked (STATS w) + 1)%Z
     end.
Proof.
  intros r. unfold r. rewrite chat_eq.
  pose proof (get_user_id_frame E (ChatRequest.uid request) w) as Hf.
  destruct (get_user_id E (ChatRequest.uid request) w) as [uid w1].
  cbn in Hf. destruct Hf as (_ & _ & Hs & Hp & _). cbv zeta.
  destruct (strip (ChatRequest.message request)) as [| c msg].
  { cbn. rewrite Hs, Hp. repeat split; lia. }
  destruct (MAX_MESSAGE_LENGTH <? _)%Z.
  { cbn. rewrite Hs, Hp. repeat split; lia. }
  set (w2 := set_STATS _ w1).
  pose proof (rate_limit_frame E uid w2) as Hrl.
  destruct (rate_limit E uid w2) as [[|] w3]; cbn in Hrl;
    destruct Hrl as (_ & Hr3 & Hp3 & _ & Hb3); cbn [fst snd];
    rewrite Hr3, Hp3, Hb3; cbn; rewrite Hs, Hp; repeat split; lia.
Qed.

Lemma serve_chat_counts (E : Env) (request : ChatRequest.t) (w : World) :
  let r := serve_chat E request w in
  requests (STATS r.2) = (requests (STATS w) + 1)%Z
  /\ (blocked (STATS w) <= blocked (STATS r.2))%Z
  /\ (Z.of_nat (length (posts r.2)) + blocked (STATS r.2)
      <= Z.of_nat (length (posts w)) + blocked (STATS w) + 1)%Z.
Proof.
  intros r. unfold r, serve_chat, bind.
  pose proof (chat_counts E request w) as Hc.
  destruct (chat E request w) as [[s t | uid ms md t mt |] w1]; cbn in Hc;
    destruct Hc as (Hp & Hr & Hb).
  - cbn. rewrite Hp, Hr. lia.
  - pose proof (stream_response_frame E uid ms md t mt w1) as (_ & Hs).
    pose proof (stream_response_posts E uid ms md t mt w1) as Hps.
    destruct (stream_response E uid ms md t mt w1) as [out w2]. cbn in *.
    rewrite Hs, Hps, length_app, Hp, Hr, Hb. cbn. lia.
  - cbn. rewrite Hp, Hr. lia.
Qed.

(** The chat calls among the calls of a run. *)
Definition chat_calls (calls : list Call) : nat :=
  length (List.filter (fun c => match c with CallChat _ => true | _ => false end) calls).
Arguments chat_calls : simpl never.

Lemma run_counts (E : Env) (calls : list Call) :
  forall w,
    let r := run E calls w in
    requests (STATS r.2) = (requests (STATS w) + Z.of_nat (chat_calls calls))%Z
    /\ (blocked (STATS w) <= blocked (STATS r.2))%Z
    /\ (Z.of_nat (length (posts r.2)) + blocked (STATS r.2)
        <= Z.of_nat (length (posts w)) + blocked (STATS w)
           + Z.of_nat (chat_calls calls))%Z.
Proof.
  induction calls as [| c rest IH]; intros w;
    [change (chat_calls []) with 0%nat; cbn; lia |].
  cbn [run]. unfold bind.
  assert (Hh : let h := handle E c w in
               requests (STATS h.2)
               = (requests (STATS w) + Z.of_nat (chat_calls [c]))%Z
               /\ (blocked (STATS w) <= blocked (STATS h.2))%Z
               /\ (Z.of_nat (length (posts h.2)) + blocked (STATS h.2)
                   <= Z.of_nat (length (posts w)) + blocked (STATS w)
                      + Z.of_nat (chat_calls [c]))%Z).
  { destruct c as [request | data |]; unfold handle, bind.
    - change (chat_calls [CallChat request]) with 1%nat.
      pose proof (serve_chat_counts E request w) as Hs.
      destruct (serve_chat E request w) as [x w1]. exact Hs.
    - change (chat_calls [CallReset data]) with 0%nat.
      unfold reset. destruct data as [| | | | | |d]; try (cbn; lia).
      destruct (default _ _); cbn; lia.
    - change (chat_calls [CallStats]) with 0%nat. cbn. lia. }
  destruct (handle E c w) as [[] w1]. cbn in Hh.
  specialize (IH w1). cbv zeta in IH.
  destruct (run E rest w1) as [[] w2]. cbn in *.
  assert (Hcc : chat_calls (c :: rest) = (chat_calls [c] + chat_calls rest)%nat).
  { unfold chat_calls. cbn. destruct c; cbn; lia. }
  rewrite Hcc. lia.
Qed.

(** X12. In every state the server reaches from its initial one,
    [requests] is the number of chat requests received so far, whatever
    became of them; [blocked] is not negative; and the upstream calls made
    and the blocked requests together never exceed [requests]: the upstream
    is called at most once per request, and never for a blocked one. *)
Theorem counters_account_for_requests (E : Env) (calls : list Call) :
  let w := (run E calls initial).2 in
  requests (STATS w) = Z.of_nat (chat_calls calls)
  /\ (0 <= blocked (STATS w))%Z
  /\ (Z.of_nat (length (posts w)) + blocked (STATS w) <= requests (STATS w))%Z.
Proof.
  intros w. unfold w.
  pose proof (run_counts E calls initial) as Hr. cbv zeta in Hr. cbn in Hr. lia.
Qed.

(** ** Blank messages *)

Definition blank (s : pystr) : Prop := Forall (fun c => isspace c = true) s.

Lemma lstrip_nil_iff (s : pystr) : lstrip s = [] <-> blank s.
Proof.
  unfold blank. induction s as [| c s IH]; cbn.
  - split; [constructor | reflexivity].
  - destruct (isspace c) eqn:Hc.
    + rewrite IH. split; [by constructor | by inversion 1].
    + split; [discriminate |]. inversion 1; congruence.
Qed.

Lemma lstrip_no_leading_space (s : pystr) (c : N) (r : pystr) :
  lstrip s = c :: r -> isspace c = false.
Proof.
  induction s as [| a s IH]; cbn; [discriminate |].
  destruct (isspace a) eqn:Ha; [exact IH |]. intros [= <- <-]. exact Ha.
Qed.

Lemma strip_nil_iff (s : pystr) : strip s = [] <-> blank s.
Proof.
  unfold strip, rstrip. split.
  - intros H. apply (f_equal (@rev N)) in H. rewrite rev_involutive in H. cbn in H.
    apply lstrip_nil_iff in H. apply Forall_rev in H. rewrite rev_involutive in H.
    destruct (lstrip s) as [| c r] eqn:Hs.
    + by apply lstrip_nil_iff.
    + apply lstrip_no_leading_space in Hs. inversion H; congruence.
  - intros H. apply lstrip_nil_iff in H. by rewrite H.
Qed.

(** X13. The handler answers with the "Say something" body exactly when
    the message consists of whitespace only (the empty message included),
    where whitespace is what [str.strip()] removes: the ASCII blanks and
    separators and the Unicode spaces. *)
Theorem chat_blank_message_iff (E : Env) (request : ChatRequest.t) (w : World) :
  (chat E request w).1 = Json (str "error") (str "Say something " ++ [0x1F642%N])
  <-> blank (ChatRequest.message request).
Proof.
  rewrite <- strip_nil_iff, chat_eq.
  destruct (get_user_id E (ChatRequest.uid request) w) as [uid w1]. cbv zeta.
  destruct (strip (ChatRequest.message request)) as [| c msg]; [done |].
  split; [| discriminate].
  destruct (MAX_MESSAGE_LENGTH <? _)%Z.
  - intros H. vm_compute in H. discriminate H.
  - destruct (rate_limit E uid _) as [[|] w3]; intros H; [discriminate H |].
    vm_compute in H. discriminate H.
Qed.

(** A message made of a tab, a no-break space and an ideographic space. *)
Definition unicode_blank_request : ChatRequest.t :=
  ChatRequest.mk [0x09; 0xA0; 0x3000]%N (Some (str "u1")) (Some (str "fast")) None None.

Lemma chat_blank_message_iff_witness :
  (chat offline unicode_blank_request initial).1
  = Json (str "error") (str "Say something " ++ [0x1F642%N]).
Proof.
  apply (proj2 (chat_blank_message_iff offline unicode_blank_request initial)).
  repeat constructor.
Defined.

(** ** The model table *)

(** X14. The model named in the upstream request is always one of the
    three configured identifiers: an alias of the table gives its entry,
    and a missing or unknown alias gives the entry of ["fast"]. *)
Theorem MODELS_get_falls_back (model : option pystr) :
  MODELS_get model ∈ [str "llama-3.1-8b-instant"; str "llama-3.1-70b-versatile";
                      str "mixtral-8x22b-instruct"]
  /\ (forall k, model = Some k -> k ∉ [str "fast"; str "smart"; str "ultra"] ->
                MODELS_get model = str "llama-3.1-8b-instant")
  /\ (model = None -> MODELS_get model = str "llama-3.1-8b-instant")
  /\ (forall k v, model = Some k -> MODELS !! k = Some v -> MODELS_get model = v).
Proof.
  assert (Hin : forall k v, MODELS !! k = Some v ->
            (k = str "fast" /\ v = str "llama-3.1-8b-instant")
            \/ (k = str "smart" /\ v = str "llama-3.1-70b-versatile")
            \/ (k = str "ultra" /\ v = str "mixtral-8x22b-instruct")).
  { intros k v Hk. apply elem_of_list_to_map_2 in Hk.
    rewrite !elem_of_cons, elem_of_nil in Hk.
    destruct Hk as [Hk | [Hk | [Hk | []]]]; injection Hk as -> ->; auto. }
  assert (Hfast : MODELS !!! str "fast" = str "llama-3.1-8b-instant") by reflexivity.
  unfold MODELS_get. rewrite Hfast.
  repeat split.
  - rewrite !elem_of_cons.
    destruct model as [k |]; cbn -[MODELS]; [| auto].
    destruct (MODELS !! k) as [v |] eqn:Hk; cbn -[MODELS]; [| auto].
    apply Hin in Hk as [[_ ->] | [[_ ->] | [_ ->]]]; auto.
  - intros k -> Hk. cbn -[MODELS].
    destruct (MODELS !! k) as [v |] eqn:Hv; cbn -[MODELS]; [| done].
    rewrite !elem_of_cons, elem_of_nil in Hk.
    apply Hin in Hv as [[-> _] | [[-> _] | [-> _]]]; exfalso; apply Hk; auto.
  - by intros ->.
  - intros k v -> Hk. cbn -[MODELS]. by rewrite Hk.
Qed.

Lemma MODELS_get_falls_back_witness :
  MODELS_get (Some (str "gpt-4")) = str "llama-3.1-8b-instant"
  /\ MODELS_get (Some (str "ultra")) = str "mixtral-8x22b-instruct".
Proof.
  split.
  - apply (proj1 (proj2 (MODELS_get_falls_back (Some (str "gpt-4")))) (str "gpt-4"));
      [reflexivity |].
    rewrite !elem_of_cons, elem_of_nil.
    intros [H | [H | [H | []]]]; vm_compute in H; discriminate H.
  - apply (proj2 (proj2 (proj2 (MODELS_get_falls_back (Some (str "ultra")))))
             (str "ultra")); reflexivity.
Defined.

(** ** The prompt *)

(** What a streaming reply of [chat] is made of. *)
Lemma chat_streaming_inv (E : Env) (request : ChatRequest.t) (w : World)
    uid ms md t mt :
  (chat E request w).1 = Streaming uid ms md t mt ->
  uid = (get_user_id E (ChatRequest.uid request) w).1
  /\ ms = [mkTurn system BASE_SYSTEM_PROMPT] ++ history w uid
            ++ [mkTurn user (strip (ChatRequest.message request))]
  /\ strip (ChatRequest.message request) <> []
  /\ (Z.of_nat (length (strip (ChatRequest.message request))) <= MAX_MESSAGE_LENGTH)%Z
  /\ md = ChatRequest.model request
  /\ t = ChatRequest.temperature request
  /\ mt = ChatRequest.max_tokens request.
Proof.
  rewrite chat_eq.
  pose proof (get_user_id_frame E (ChatRequest.uid request) w) as Hf.
  destruct (get_user_id E (ChatRequest.uid request) w) as [uid' w1].
  cbn in Hf. destruct Hf as (Hm & _). cbv zeta.
  destruct (strip (ChatRequest.message request)) as [| c msg] eqn:Hmsg;
    [discriminate |].
  destruct (Z.ltb_spec MAX_MESSAGE_LENGTH (Z.of_nat (length (c :: msg))));
    [discriminate |].
  set (w2 := set_STATS _ w1).
  pose proof (rate_limit_frame E uid' w2) as (Hm3 & _).
  destruct (rate_limit E uid' w2) as [[|] w3]; [| discriminate].
  cbn in Hm3. intros [= <- <- <- <- <-]. cbn [fst].
  repeat split; try done.
  unfold history. by rewrite Hm3, <- Hm.
Qed.

Lemma run_paired (E : Env) (calls : list Call) :
  forall w, memory_paired w -> memory_paired (run E calls w).2.
Proof.
  induction calls as [| c r IH]; intros w Hw; [exact Hw |].
  cbn [run]. unfold bind.
  pose proof (handle_paired E c w Hw) as Hh.
  destruct (handle E c w) as [[] w1]. by apply IH.
Qed.

(** X15. In every state the server reaches from its initial one, the
    messages of a streaming reply, which are the messages sent upstream,
    are the system prompt, then the stored history of the identity, then
    one user turn holding the trimmed message, which is not empty and has
    at most [MAX_MESSAGE_LENGTH] characters: never more than
    [2 * MAX_MEMORY_MESSAGES + 2] messages in all. *)
Theorem prompt_is_bounded (E : Env) (calls : list Call) (request : ChatRequest.t)
    uid ms md t mt :
  let w := (run E calls initial).2 in
  (chat E request w).1 = Streaming uid ms md t mt ->
  ms = [mkTurn system BASE_SYSTEM_PROMPT] ++ history w uid
         ++ [mkTurn user (strip (ChatRequest.message request))]
  /\ (Z.of_nat (length ms) <= 2 * MAX_MEMORY_MESSAGES + 2)%Z
  /\ strip (ChatRequest.message request) <> []
  /\ (Z.of_nat (length (strip (ChatRequest.message request))) <= MAX_MESSAGE_LENGTH)%Z.
Proof.
  intros w Hc. apply chat_streaming_inv in Hc as (_ & Hms & Hne & Hlen & _).
  repeat split; try done.
  assert (Hi : memory_paired initial).
  { intros u h Hl. cbn in Hl. by rewrite lookup_empty in Hl. }
  destruct (history_paired _ uid (run_paired E calls initial Hi)) as (ps & Hps & Hl).
  fold w in Hps. rewrite Hms, !length_app, Hps, length_flat_exchange.
  unfold MAX_MEMORY_MESSAGES. cbn. lia.
Qed.

Lemma prompt_is_bounded_witness :
  let w := (run answers_A_B [CallChat hi_request] initial).2 in
  let ms := [mkTurn system BASE_SYSTEM_PROMPT; mkTurn user (str "hi");
             mkTurn assistant (str "AB"); mkTurn user (str "hi")] in
  ms = [mkTurn system BASE_SYSTEM_PROMPT] ++ history w (str "u1")
         ++ [mkTurn user (strip (ChatRequest.message hi_request))]
  /\ (Z.of_nat (length ms) <= 2 * MAX_MEMORY_MESSAGES + 2)%Z
  /\ strip (ChatRequest.message hi_request) <> []
  /\ (Z.of_nat (length (strip (ChatRequest.message hi_request))) <= MAX_MESSAGE_LENGTH)%Z.
Proof.
  apply (prompt_is_bounded answers_A_B [CallChat hi_request] hi_request (str "u1") _
           (Some (str "fast")) None None).
  vm_compute. reflexivity.
Defined.

(** X16. After a reset of an identity, its next chat request starts a new
    conversation: the messages of the streaming reply are the system prompt
    and the new user turn, with nothing of what was said before. *)
Theorem chat_after_reset_has_no_history (E : Env) (request : ChatRequest.t)
    (u : pystr) (d : list (pystr * pyval)) (w : World) uid ms md t mt :
  dict_get (str "uid") d = Some (PyStr u) ->
  ChatRequest.uid request = Some u ->
  u <> [] ->
  (chat E request (reset (PyDict d) w).2).1 = Streaming uid ms md t mt ->
  uid = u
  /\ ms = [mkTurn system BASE_SYSTEM_PROMPT;
           mkTurn user (strip (ChatRequest.message request))].
Proof.
  intros Hd Hu Hne Hc. apply chat_streaming_inv in Hc as (Hid & Hms & _).
  rewrite Hu in Hid. unfold get_user_id in Hid.
  destruct u as [| c u]; [done |]. cbn in Hid. subst uid.
  split; [reflexivity |].
  rewrite Hms, (reset_uid (c :: u) d w Hd). unfold history. cbn.
  by rewrite lookup_delete_eq.
Qed.

Lemma chat_after_reset_has_no_history_witness :
  str "u1" = str "u1"
  /\ [mkTurn system BASE_SYSTEM_PROMPT; mkTurn user (str "hi")]
     = [mkTurn system BASE_SYSTEM_PROMPT;
        mkTurn user (strip (ChatRequest.message hi_request))].
Proof.
  apply (chat_after_reset_has_no_history offline hi_request (str "u1")
           [(str "uid", PyStr (str "u1"))] chatted (str "u1")
           [mkTurn system BASE_SYSTEM_PROMPT; mkTurn user (str "hi")]
           (Some (str "fast")) None None).
  - reflexivity.
  - reflexivity.
  - discriminate.
  - vm_compute. reflexivity.
Defined.

(** Without the reset the same request carries the stored exchange. *)
Example chat_without_reset_has_history :
  (chat offline hi_request chatted).1
  = Streaming (str "u1")
      [mkTurn system BASE_SYSTEM_PROMPT; mkTurn user (str "hi");
       mkTurn assistant (str "hello"); mkTurn user (str "hi")]
      (Some (str "fast")) None None.
Proof. vm_compute. reflexivity. Qed.

(** X17. A request that names no identity (no [uid], or an empty one) is
    served under a freshly generated identifier, and when that identifier
    has no window yet the request is never rate limited, however many
    requests were made before: with a valid message the reply is the
    stream, the prompt holds whatever history is stored under the generated
    identifier, and [blocked] does not change. *)
Theorem chat_without_uid_is_admitted (E : Env) (request : ChatRequest.t) (w : World) :
  let fresh_id := uuid4 E (uuid_draws w) in
  let msg := strip (ChatRequest.message request) in
  ChatRequest.uid request = None \/ ChatRequest.uid request = Some [] ->
  msg <> [] ->
  (Z.of_nat (length msg) <= MAX_MESSAGE_LENGTH)%Z ->
  USER_REQUESTS w !! fresh_id = None ->
  let r := chat E request w in
  r.1 = Streaming fresh_id
          ([mkTurn system BASE_SYSTEM_PROMPT] ++ history w fresh_id ++ [mkTurn user msg])
          (ChatRequest.model request) (ChatRequest.temperature request)
          (ChatRequest.max_tokens request)
  /\ blocked (STATS r.2) = blocked (STATS w)
  /\ uuid_draws r.2 = S (uuid_draws w).
Proof.
  intros fresh_id msg Hu Hne Hlen Hw r. unfold r. rewrite chat_eq.
  assert (Hid : get_user_id E (ChatRequest.uid request) w
                = (fresh_id, set_uuid_draws (S (uuid_draws w)) w)).
  { unfold get_user_id. by destruct Hu as [-> | ->]. }
  rewrite Hid. cbv zeta. fold msg.
  destruct msg as [| c m] eqn:Hmsg; [done |].
  destruct (Z.ltb_spec MAX_MESSAGE_LENGTH (Z.of_nat (length (c :: m)))); [lia |].
  rewrite rate_limit_below.
  - cbn. by repeat split.
  - unfold requests_window. cbn. rewrite Hw. cbn. unfold REQUESTS_PER_MINUTE. lia.
Qed.

Definition anonymous_request : ChatRequest.t :=
  ChatRequest.mk (str "hi") None (Some (str "fast")) None None.

Lemma chat_without_uid_is_admitted_witness :
  let r := chat offline anonymous_request busy in
  r.1 = Streaming (uuid4 offline (uuid_draws busy))
          ([mkTurn system BASE_SYSTEM_PROMPT]
             ++ history busy (uuid4 offline (uuid_draws busy))
             ++ [mkTurn user (strip (ChatRequest.message anonymous_request))])
          (ChatRequest.model anonymous_request)
          (ChatRequest.temperature anonymous_request)
          (ChatRequest.max_tokens anonymous_request)
  /\ blocked (STATS r.2) = blocked (STATS busy)
  /\ uuid_draws r.2 = S (uuid_draws busy).
Proof.
  apply (chat_without_uid_is_admitted offline anonymous_request busy).
  - by left.
  - discriminate.
  - vm_compute. discriminate.
  - reflexivity.
Defined.

(** ** One stream, one identity *)

(** X18. Whatever the upstream does, a stream for one identity leaves the
    histories of all other identities, every request window, both counters
    and the clock as they were; the identity's own history is either
    unchanged (the stream failed) or is the old one with exactly one
    exchange appended, cut to the last [2 * MAX_MEMORY_MESSAGES] turns. *)
Theorem stream_response_is_per_identity (E : Env) (uid : pystr)
    (messages : list Turn) (model : option pystr) (temperature : option float)
    (max_tokens : option Z) (w : World) :
  let s := stream_response E uid messages model temperature max_tokens w in
  (forall other, other <> uid -> USER_MEMORY s.2 !! other = USER_MEMORY w !! other)
  /\ USER_REQUESTS s.2 = USER_REQUESTS w
  /\ STATS s.2 = STATS w
  /\ clock_reads s.2 = clock_reads w
  /\ (USER_MEMORY s.2 = USER_MEMORY w
      \/ exists user_msg ai_msg,
           history s.2 uid
           = lastn (Z.to_nat (2 * MAX_MEMORY_MESSAGES))
               (history w uid ++ [mkTurn user user_msg; mkTurn assistant ai_msg])).
Proof.
  intros s. unfold s.
  destruct (stream_response_cases E uid messages model temperature max_tokens w)
    as [(out & e & Hs) | (out & full & m & _ & Hs)]; rewrite Hs; cbn.
  - repeat split. by left.
  - repeat split.
    + intros other Hne. by rewrite lookup_insert_ne.
    + right. exists (content m), full. unfold history at 1. cbn.
      by rewrite lookup_insert_eq.
Qed.

(** X19. Called with an empty list of messages, the generator still makes
    the upstream call and relays its fragments, but then fails on
    [messages[-1]]: when the body has been read to its end it yields the
    error fragment for "list index out of range" after the content, logs
    it, and commits nothing. *)
Theorem stream_response_without_messages (E : Env) (uid : pystr)
    (model : option pystr) (temperature : option float) (max_tokens : option Z)
    (w : World) (r : Response) (out : list pystr) (full : pystr) :
  requests_post E (length (posts w))
    (upstream_call E [] model temperature max_tokens) = Answered r ->
  raise_for_status r = None ->
  relay E (lines r) (broken r) [] = (out, full, Finished) ->
  let s := stream_response E uid [] model temperature max_tokens w in
  s.1 = out ++ [error_prefix ++ str "list index out of range"]
  /\ USER_MEMORY s.2 = USER_MEMORY w
  /\ error_log s.2 = error_log w ++ [str "list index out of range"]
  /\ posts s.2 = posts w ++ [upstream_call E [] model temperature max_tokens].
Proof.
  intros Hr Hs Hl s. unfold s, stream_response, bind, post.
  fold (upstream_call E [] model temperature max_tokens).
  rewrite Hr, Hs, Hl. by cbn.
Qed.

Lemma stream_response_without_messages_witness :
  let s := stream_response answers_A_B (str "u1") [] (Some (str "fast"))
             None None initial in
  s.1 = [str "A"; str "B"] ++ [error_prefix ++ str "list index out of range"]
  /\ USER_MEMORY s.2 = USER_MEMORY initial
  /\ error_log s.2 = error_log initial ++ [str "list index out of range"]
  /\ posts s.2
     = posts initial ++ [upstream_call answers_A_B [] (Some (str "fast")) None None].
Proof.
  apply (stream_response_without_messages answers_A_B (str "u1") (Some (str "fast"))
           None None initial
           (mkResponse 200 (str "OK") GROQ_URL
              [content_frame "A"; content_frame "B"; done_frame] None)
           [str "A"; str "B"] (str "AB")).
  - reflexivity.
  - reflexivity.
  - apply relay_A_B_done.
Defined.
